(** * Modbus bridge for a double RS-485 bus: model and properties

    A shallow embedding of [modbus_bridge.py].

    - [load_config] and [main] are embedded as functions of the process
      environment (a finite map from variable names to values).
    - The [ModbusBridge] object is a record holding the four connection
      handles, the bus lock and the [running] flag.
    - The two forwarding coroutines, [bridge_tcp_to_nport1] and
      [bridge_nport2_to_nport1], are embedded as step functions: a task is
      suspended at one of the [await] expressions of the source (its program
      point), and a step resumes it with the outcome of the awaited operation
      and runs the synchronous code up to the next [await].  This is the
      granularity at which asyncio tasks interleave.
    - The network is not modelled: the outcome of every awaited operation is
      an input of the step, so every theorem holds for every behaviour of the
      peers.

    Assumed about the Python runtime (3.8 or later):
    [asyncio.TimeoutError] is a subclass of [Exception],
    [asyncio.CancelledError] is not, and [asyncio.Lock] is a binary lock
    whose [async with] block releases it however the block is left. *)

From Stdlib Require Import ZArith Lia Ascii String.
From Stdlib.Strings Require Import Byte.
From stdpp Require Import base option list strings gmap.

(** ** Exceptions and awaited operations *)

(** The exception classes the handlers of the source tell apart. *)
Inductive exn :=
| TimeoutError      (* asyncio.TimeoutError *)
| OtherException    (* any other subclass of Exception: OSError, AttributeError, ... *)
| CancelledError.   (* asyncio.CancelledError: a BaseException, not an Exception *)

(** [except asyncio.TimeoutError] *)
Definition is_TimeoutError (e : exn) : bool :=
  match e with TimeoutError => true | _ => false end.

(** [except Exception] *)
Definition is_Exception (e : exn) : bool :=
  match e with CancelledError => false | _ => true end.

(** What an [await] evaluates to: a value, or a raised exception. *)
Inductive awaited (A : Type) :=
| Got (a : A)
| Threw (e : exn).
Arguments Got {A} a.
Arguments Threw {A} e.

(** What a coroutine call evaluates to. *)
Inductive result (A : Type) :=
| Return (a : A)
| Raise (e : exn).
Arguments Return {A} a.
Arguments Raise {A} e.

(** A connection as [asyncio.open_connection] returns it; the reader and the
    writer of one connection carry the same identifier. *)
Definition conn := nat.

Definition bytes := list byte.

(** Observable calls on the network objects. *)
Inductive event :=
| Open1                      (* asyncio.open_connection(nport1_host, nport1_port) *)
| Open2                      (* asyncio.open_connection(nport2_host, nport2_port) *)
| Write1 (d : bytes)         (* self.nport1_writer.write(d) *)
| Write2 (d : bytes)         (* self.nport2_writer.write(d) *)
| WriteClient (d : bytes)    (* client_writer.write(d) *)
| Close1                     (* self.nport1_writer.close() *)
| Close2                     (* self.nport2_writer.close() *)
| CloseClient.               (* client_writer.close() *)

(** ** The bridge object *)

Record bridge := Bridge {
  nport1_reader : option conn;
  nport1_writer : option conn;
  nport2_reader : option conn;
  nport2_writer : option conn;
  bus_lock : bool;            (* asyncio.Lock: true when locked *)
  running : bool
}.

(** The fields [__init__] sets. *)
Definition bridge_init : bridge :=
  {| nport1_reader := None; nport1_writer := None;
     nport2_reader := None; nport2_writer := None;
     bus_lock := false; running := false |}.

Definition set_nport1 (r w : option conn) (b : bridge) : bridge :=
  {| nport1_reader := r; nport1_writer := w;
     nport2_reader := nport2_reader b; nport2_writer := nport2_writer b;
     bus_lock := bus_lock b; running := running b |}.

Definition set_nport2 (r w : option conn) (b : bridge) : bridge :=
  {| nport1_reader := nport1_reader b; nport1_writer := nport1_writer b;
     nport2_reader := r; nport2_writer := w;
     bus_lock := bus_lock b; running := running b |}.

Definition set_bus_lock (l : bool) (b : bridge) : bridge :=
  {| nport1_reader := nport1_reader b; nport1_writer := nport1_writer b;
     nport2_reader := nport2_reader b; nport2_writer := nport2_writer b;
     bus_lock := l; running := running b |}.

Definition set_running (r : bool) (b : bridge) : bridge :=
  {| nport1_reader := nport1_reader b; nport1_writer := nport1_writer b;
     nport2_reader := nport2_reader b; nport2_writer := nport2_writer b;
     bus_lock := bus_lock b; running := r |}.

(** [self.nportN_reader = None; self.nportN_writer = None] *)
Definition clear_nport1 : bridge -> bridge := set_nport1 None None.
Definition clear_nport2 : bridge -> bridge := set_nport2 None None.

(** Leaving the [async with self.bus_lock] block. *)
Definition release : bridge -> bridge := set_bus_lock false.

(** Truth value of an [Optional] handle. *)
Definition present (h : option conn) : bool :=
  match h with Some _ => true | None => false end.

(** ** Connecting *)

(** [connect_nport1], resumed with the outcome [r] of
    [await asyncio.wait_for(asyncio.open_connection(...), timeout)].
    The tuple assignment sets both handles; [except Exception] turns a
    failure into [False] and leaves the fields as they were. *)
Definition connect_nport1 (r : awaited conn) (b : bridge) : result bool * bridge :=
  match r with
  | Got c => (Return true, set_nport1 (Some c) (Some c) b)
  | Threw e => if is_Exception e then (Return false, b) else (Raise e, b)
  end.

(** [connect_nport2], likewise. *)
Definition connect_nport2 (r : awaited conn) (b : bridge) : result bool * bridge :=
  match r with
  | Got c => (Return true, set_nport2 (Some c) (Some c) b)
  | Threw e => if is_Exception e then (Return false, b) else (Raise e, b)
  end.

(** [if self.nport1_writer and self.nport1_reader] *)
Definition nport1_connected (b : bridge) : bool :=
  present (nport1_writer b) && present (nport1_reader b).

(** [ensure_nport1_connected], run without interleaving: [r] is the outcome
    of the connection attempt, used only if one is made.  The last component
    lists the network calls made. *)
Definition ensure_nport1_connected (r : awaited conn) (b : bridge)
  : result bool * bridge * list event :=
  if nport1_connected b then (Return true, b, [])
  else (connect_nport1 r b, [Open1]).

(** ** Suspended tasks *)

(** The outcome of the operation a task is suspended on. *)
Inductive outcome :=
| OConn (r : awaited conn)     (* wait_for(open_connection(...)) *)
| ORead (r : awaited bytes)    (* wait_for(reader.read(1024)); the empty string is end of stream *)
| ODone (r : awaited unit).    (* drain(), wait_closed(), sleep(), the lock's acquire(), a first scheduling *)

(** Program points of [bridge_tcp_to_nport1]: the [await] the session is
    suspended on. *)
Inductive client_pc :=
| CStart                    (* the task is created and has not run yet *)
| CRead                     (* l.118  client_reader.read(1024) under wait_for *)
| CConnect (data : bytes)   (* l.127 > l.87 > l.71  open_connection to NPort 1 *)
| CAcquire (data : bytes)   (* l.133  async with self.bus_lock: waiting for the lock *)
| CDrain                    (* l.137  nport1_writer.drain() under wait_for *)
| CRecv                     (* l.145  nport1_reader.read(1024) under wait_for *)
| CReply                    (* l.154  client_writer.drain() *)
| CClose                    (* l.170  client_writer.wait_closed() *)
| CDone.                    (* the coroutine is over *)

(** The [finally] clause of the session, l.168-170. *)
Definition client_finally (b : bridge) : bridge * client_pc * list event :=
  (b, CClose, [CloseClient]).

(** Back at [while self.running], l.116, and on to the next [await]. *)
Definition client_loop (b : bridge) : bridge * client_pc * list event :=
  if running b then (b, CRead, []) else client_finally b.

(** An exception raised in the outer [try] outside the lock block: both
    handlers (l.164, l.166) only log, and an exception none of them catches
    passes through [finally] as well. *)
Definition client_session_raise (e : exn) (b : bridge)
  : bridge * client_pc * list event :=
  client_finally b.

(** An exception raised in the [try] of l.134, with the lock held: the
    handler of l.158 clears the NPort 1 handles and the block is left
    normally; an exception it does not catch leaves the [async with] block,
    which releases the lock, and then the session. *)
Definition client_exchange_raise (e : exn) (b : bridge)
  : bridge * client_pc * list event :=
  if is_Exception e then client_loop (release (clear_nport1 b))
  else client_session_raise e (release b).

(** An exception raised in the inner [try] of l.144: the handler of l.156
    catches a timeout; anything else goes to the enclosing [try]. *)
Definition client_reply_raise (e : exn) (b : bridge)
  : bridge * client_pc * list event :=
  if is_TimeoutError e then client_loop (release b)
  else client_exchange_raise e b.

(** [bridge_tcp_to_nport1]: resume the session suspended at [pc] with
    outcome [o].  [None]: the outcome is not one of the awaited operation,
    or the lock is taken and the task stays suspended. *)
Definition client_step (b : bridge) (pc : client_pc) (o : outcome)
  : option (bridge * client_pc * list event) :=
  match pc, o with
  | CStart, ODone (Got _) => Some (client_loop b)
  | CStart, ODone (Threw CancelledError) => Some (b, CDone, [])
  | CRead, ORead (Got data) =>
      match data with
      | [] => Some (client_finally b)                              (* l.120-122 *)
      | _ => if nport1_connected b then Some (b, CAcquire data, [])  (* l.83-84 *)
             else Some (b, CConnect data, [Open1])                   (* l.86-87 *)
      end
  | CRead, ORead (Threw e) => Some (client_session_raise e b)
  | CConnect data, OConn r =>
      match connect_nport1 r b with
      | (Return true, b') => Some (b', CAcquire data, [])
      | (Return false, b') => Some (client_loop b')                  (* l.127-130 *)
      | (Raise e, b') => Some (client_session_raise e b')
      end
  | CAcquire data, ODone (Got _) =>
      if bus_lock b then None
      else
        let b1 := set_bus_lock true b in
        match nport1_writer b1 with
        | Some _ => Some (b1, CDrain, [Write1 data])                 (* l.136-137 *)
        | None => Some (client_exchange_raise OtherException b1)     (* None.write *)
        end
  | CAcquire data, ODone (Threw e) => Some (client_session_raise e b)
  | CDrain, ODone (Got _) =>
      match nport1_reader b with
      | Some _ => Some (b, CRecv, [])                                (* l.145 *)
      | None => Some (client_reply_raise OtherException b)           (* None.read *)
      end
  | CDrain, ODone (Threw e) => Some (client_exchange_raise e b)
  | CRecv, ORead (Got response) =>
      match response with
      | [] => Some (client_loop (release b))                         (* l.150 *)
      | _ => Some (b, CReply, [WriteClient response])                (* l.153-154 *)
      end
  | CRecv, ORead (Threw e) => Some (client_reply_raise e b)
  | CReply, ODone (Got _) => Some (client_loop (release b))
  | CReply, ODone (Threw e) => Some (client_reply_raise e b)
  | CClose, ODone _ => Some (b, CDone, [])
  | _, _ => None
  end.

(** Program points of [bridge_nport2_to_nport1]. *)
Inductive sec_pc :=
| SStart                    (* the task is created and has not run yet *)
| SConnect2                 (* l.183 > l.93  open_connection to NPort 2 *)
| SSleep (secs : nat)       (* l.184, l.203, l.211, l.261  asyncio.sleep *)
| SRead2                    (* l.188  nport2_reader.read(1024) under wait_for *)
| SClose2                   (* l.198, l.256  nport2_writer.wait_closed() *)
| SConnect1 (data : bytes)  (* l.209 > l.87 > l.71  open_connection to NPort 1 *)
| SAcquire (data : bytes)   (* l.215  async with self.bus_lock: waiting for the lock *)
| SDrain                    (* l.219  nport1_writer.drain() under wait_for *)
| SRecv                     (* l.227  nport1_reader.read(1024) under wait_for *)
| SReply                    (* l.237  nport2_writer.drain() *)
| SDone.                    (* the coroutine is over *)

(** Back at [while self.running], l.179, and on to the next [await]. *)
Definition sec_loop (b : bridge) : bridge * sec_pc * list event :=
  if running b then
    match nport2_reader b with
    | None => (b, SConnect2, [Open2])                                (* l.181-183 *)
    | Some _ => (b, SRead2, [])                                      (* l.188 *)
    end
  else (b, SDone, []).

(** Closing and forgetting the NPort 2 connection, l.195-203 and l.253-261:
    close the writer if there is one, clear both handles, sleep one second. *)
Definition sec_drop_nport2 (b : bridge) : bridge * sec_pc * list event :=
  match nport2_writer b with
  | Some _ => (b, SClose2, [Close2])
  | None => (clear_nport2 b, SSleep 1, [])
  end.

(** An exception raised in the outer [try] of l.180, outside the lock block:
    l.247 for a timeout, l.250 for another [Exception]; anything else leaves
    the coroutine. *)
Definition sec_loop_raise (e : exn) (b : bridge) : bridge * sec_pc * list event :=
  if is_TimeoutError e then sec_loop b
  else if is_Exception e then sec_drop_nport2 b
  else (b, SDone, []).

(** An exception raised in the [try] of l.216, with the lock held: the handler
    of l.241 clears the NPort 1 handles; an exception it does not catch
    leaves the [async with] block, which releases the lock, and goes on to
    the outer handlers. *)
Definition sec_exchange_raise (e : exn) (b : bridge) : bridge * sec_pc * list event :=
  if is_Exception e then sec_loop (release (clear_nport1 b))
  else sec_loop_raise e (release b).

(** An exception raised in the inner [try] of l.226. *)
Definition sec_reply_raise (e : exn) (b : bridge) : bridge * sec_pc * list event :=
  if is_TimeoutError e then sec_loop (release b)
  else sec_exchange_raise e b.

(** [bridge_nport2_to_nport1]: resume the loop suspended at [pc] with outcome
    [o].  [asyncio.sleep] completes or is cancelled, nothing else. *)
Definition sec_step (b : bridge) (pc : sec_pc) (o : outcome)
  : option (bridge * sec_pc * list event) :=
  match pc, o with
  | SStart, ODone (Got _) => Some (sec_loop b)
  | SStart, ODone (Threw CancelledError) => Some (b, SDone, [])
  | SConnect2, OConn r =>
      match connect_nport2 r b with
      | (Return true, b') => Some (b', SRead2, [])                   (* l.188 *)
      | (Return false, b') => Some (b', SSleep 5, [])                (* l.184 *)
      | (Raise e, b') => Some (sec_loop_raise e b')
      end
  | SSleep _, ODone (Got _) => Some (sec_loop b)
  | SSleep _, ODone (Threw CancelledError) => Some (b, SDone, [])
  | SRead2, ORead (Got data) =>
      match data with
      | [] => Some (sec_drop_nport2 b)                               (* l.193-204 *)
      | _ => if nport1_connected b then Some (b, SAcquire data, [])
             else Some (b, SConnect1 data, [Open1])
      end
  | SRead2, ORead (Threw e) => Some (sec_loop_raise e b)
  | SClose2, ODone (Got _) => Some (clear_nport2 b, SSleep 1, [])
  | SClose2, ODone (Threw e) =>
      if is_Exception e then Some (clear_nport2 b, SSleep 1, [])     (* l.199, l.257 *)
      else Some (b, SDone, [])
  | SConnect1 data, OConn r =>
      match connect_nport1 r b with
      | (Return true, b') => Some (b', SAcquire data, [])
      | (Return false, b') => Some (b', SSleep 1, [])                (* l.209-212 *)
      | (Raise e, b') => Some (sec_loop_raise e b')
      end
  | SAcquire data, ODone (Got _) =>
      if bus_lock b then None
      else
        let b1 := set_bus_lock true b in
        match nport1_writer b1 with
        | Some _ => Some (b1, SDrain, [Write1 data])                 (* l.218-219 *)
        | None => Some (sec_exchange_raise OtherException b1)        (* None.write *)
        end
  | SAcquire data, ODone (Threw e) => Some (sec_loop_raise e b)
  | SDrain, ODone (Got _) =>
      match nport1_reader b with
      | Some _ => Some (b, SRecv, [])                                (* l.227 *)
      | None => Some (sec_reply_raise OtherException b)              (* None.read *)
      end
  | SDrain, ODone (Threw e) => Some (sec_exchange_raise e b)
  | SRecv, ORead (Got response) =>
      match response, nport2_writer b with
      | _ :: _, Some _ => Some (b, SReply, [Write2 response])        (* l.232-237 *)
      | _, _ => Some (sec_loop (release b))
      end
  | SRecv, ORead (Threw e) => Some (sec_reply_raise e b)
  | SReply, ODone (Got _) => Some (sec_loop (release b))
  | SReply, ODone (Threw e) => Some (sec_reply_raise e b)
  | _, _ => None
  end.

(** ** The running bridge: tasks interleaved by the event loop *)

Record system := System {
  br : bridge;                  (* the shared ModbusBridge object *)
  clients : list client_pc;     (* one session per accepted connection *)
  secondary : sec_pc            (* the single bridge_nport2_to_nport1 task *)
}.

Inductive action :=
| Accept                            (* start_server accepts a connection and creates a session *)
| Client (i : nat) (o : outcome)    (* the event loop resumes session [i] *)
| Secondary (o : outcome)           (* the event loop resumes the NPort 2 loop *)
| Shutdown.                         (* cleanup() *)

(** [cleanup], l.304-315: clears [running] and closes the writers that are
    there; the handle fields are left as they are. *)
Definition cleanup (b : bridge) : bridge * list event :=
  (set_running false b,
   (if present (nport1_writer b) then [Close1] else []) ++
   (if present (nport2_writer b) then [Close2] else [])).

Definition sys_step (s : system) (a : action) : option (system * list event) :=
  match a with
  | Accept =>
      Some ({| br := br s; clients := clients s ++ [CStart];
               secondary := secondary s |}, [])
  | Client i o =>
      match clients s !! i with
      | Some pc =>
          match client_step (br s) pc o with
          | Some (b', pc', evs) =>
              Some ({| br := b'; clients := <[i := pc']> (clients s);
                       secondary := secondary s |}, evs)
          | None => None
          end
      | None => None
      end
  | Secondary o =>
      match sec_step (br s) (secondary s) o with
      | Some (b', pc', evs) =>
          Some ({| br := b'; clients := clients s; secondary := pc' |}, evs)
      | None => None
      end
  | Shutdown =>
      let '(b', evs) := cleanup (br s) in
      Some ({| br := b'; clients := clients s; secondary := secondary s |}, evs)
  end.

(** [run], l.277-296, up to the [gather]: [r1] and [r2] are the outcomes of
    the two connection attempts; the second component lists the network
    calls made.  [None]: the bridge does not start. *)
Definition boot (r1 r2 : awaited conn) : option system * list event :=
  match connect_nport1 r1 (set_running true bridge_init) with
  | (Return true, b1) =>
      match connect_nport2 r2 b1 with
      | (Return _, b2) =>
          (Some {| br := b2; clients := []; secondary := SStart |}, [Open1; Open2])
      | (Raise _, _) => (None, [Open1; Open2])
      end
  | _ => (None, [Open1])
  end.

Fixpoint run_actions (s : system) (acts : list action) : option system :=
  match acts with
  | [] => Some s
  | a :: acts' =>
      match sys_step s a with
      | Some (s', _) => run_actions s' acts'
      | None => None
      end
  end.

(** The states the bridge can be in after it has started. *)
Definition reachable (s : system) : Prop :=
  exists r1 r2 s0 acts,
    fst (boot r1 r2) = Some s0 /\ run_actions s0 acts = Some s.

(** *** Tasks and the lock *)

Inductive task :=
| TClient (i : nat)
| TSecondary.

Definition resume (t : task) (o : outcome) : action :=
  match t with
  | TClient i => Client i o
  | TSecondary => Secondary o
  end.

(** Program points inside the [async with self.bus_lock] block
    (l.134-162, l.216-245). *)
Definition client_in_cs (pc : client_pc) : bool :=
  match pc with CDrain | CRecv | CReply => true | _ => false end.

Definition sec_in_cs (pc : sec_pc) : bool :=
  match pc with SDrain | SRecv | SReply => true | _ => false end.

(** Program points of the exchange with NPort 1: the write with its drain,
    and the read of the reply. *)
Definition client_on_primary (pc : client_pc) : bool :=
  match pc with CDrain | CRecv => true | _ => false end.

Definition sec_on_primary (pc : sec_pc) : bool :=
  match pc with SDrain | SRecv => true | _ => false end.

(** Program points of a connection attempt to NPort 1. *)
Definition client_connecting (pc : client_pc) : bool :=
  match pc with CConnect _ => true | _ => false end.

Definition sec_connecting (pc : sec_pc) : bool :=
  match pc with SConnect1 _ => true | _ => false end.

(** Program points where the task waits for the lock. *)
Definition client_acquiring (pc : client_pc) : bool :=
  match pc with CAcquire _ => true | _ => false end.

Definition sec_acquiring (pc : sec_pc) : bool :=
  match pc with SAcquire _ => true | _ => false end.

Definition task_at (fc : client_pc -> bool) (fs : sec_pc -> bool)
    (s : system) (t : task) : bool :=
  match t with
  | TClient i => from_option fc false (clients s !! i)
  | TSecondary => fs (secondary s)
  end.

Definition holds_lock : system -> task -> bool := task_at client_in_cs sec_in_cs.
Definition on_primary : system -> task -> bool := task_at client_on_primary sec_on_primary.
Definition connecting : system -> task -> bool := task_at client_connecting sec_connecting.
Definition acquiring : system -> task -> bool := task_at client_acquiring sec_acquiring.

Fixpoint count_cs (l : list client_pc) : nat :=
  match l with
  | [] => 0
  | pc :: l' => (if client_in_cs pc then 1 else 0) + count_cs l'
  end.

(** The number of tasks inside the lock block. *)
Definition holders (s : system) : nat :=
  count_cs (clients s) + (if sec_in_cs (secondary s) then 1 else 0).

(** The lock is taken exactly when one task is inside the block. *)
Definition lock_inv (s : system) : Prop :=
  holders s = if bus_lock (br s) then 1 else 0.

(** Reader and writer of each endpoint are there together or not at all. *)
Definition paired (b : bridge) : Prop :=
  present (nport1_reader b) = present (nport1_writer b) /\
  present (nport2_reader b) = present (nport2_writer b).

(** ** Configuration *)

(** [int(s)] for a string of ASCII characters, as CPython reads it in base
    10: white space, an optional sign, digits with single underscores
    between them, white space.  More than 4300 digits are refused
    (the default [sys.int_info.default_max_str_digits] of Python 3.11).
    [None] stands for [ValueError]. *)
Definition is_space (c : ascii) : bool :=
  let n := nat_of_ascii c in
  ((9 <=? n) && (n <=? 13) || (n =? 32))%nat.

Definition digit_value (c : ascii) : option Z :=
  let n := nat_of_ascii c in
  if ((48 <=? n) && (n <=? 57))%nat then Some (Z.of_nat (n - 48)) else None.

Fixpoint skip_space (s : list ascii) : list ascii :=
  match s with
  | c :: s' => if is_space c then skip_space s' else s
  | [] => []
  end.

(** Reads digits and underscores; returns the value, the number of digits
    and what follows.  [prev_us]: the character before was an underscore. *)
Fixpoint scan_digits (prev_us : bool) (n : nat) (acc : Z) (s : list ascii)
  : option (Z * nat * list ascii) :=
  match s with
  | c :: s' =>
      match digit_value c with
      | Some d => scan_digits false (S n) (10 * acc + d)%Z s'
      | None =>
          if Ascii.eqb c "_" then
            if prev_us then None else scan_digits true n acc s'
          else
            if prev_us then None else Some (acc, n, s)
      end
  | [] => if prev_us then None else Some (acc, n, [])
  end.

Definition max_str_digits : nat := 4300.

Definition py_int (s : string) : option Z :=
  let s1 := skip_space (list_ascii_of_string s) in
  let '(neg, s2) :=
    match s1 with
    | "+"%char :: t => (false, t)
    | "-"%char :: t => (true, t)
    | _ => (false, s1)
    end in
  match s2 with
  | "_"%char :: _ => None
  | _ =>
      match scan_digits false 0 0%Z s2 with
      | Some (v, n, rest) =>
          if ((n =? 0) || (max_str_digits <? n))%nat then None
          else
            match skip_space rest with
            | [] => Some (if neg then (- v)%Z else v)
            | _ => None
            end
      | None => None
      end
  end.

(** [os.getenv(key, default)] *)
Definition getenv (env : gmap string string) (key dflt : string) : string :=
  default dflt (env !! key).

(** The dictionary [load_config] builds. *)
Record config := Config {
  nport1_host : string;
  nport1_port : Z;
  nport2_host : string;
  nport2_port : Z;
  listen_host : string;
  listen_port : Z;
  timeout : Z
}.

Inductive loaded :=
| Loaded (c : config)       (* return config *)
| SysExit (status : Z).     (* sys.exit(status) *)

(** [load_config], l.320-343: the entries are evaluated in order inside one
    [try]; a [ValueError] from any [int] ends in [sys.exit(1)]. *)
Definition load_config (env : gmap string string) : loaded :=
  let nport1_host := getenv env "NPORT1_HOST" "192.168.1.100" in
  match py_int (getenv env "NPORT1_PORT" "4001") with
  | None => SysExit 1
  | Some nport1_port =>
  let nport2_host := getenv env "NPORT2_HOST" "192.168.1.101" in
  match py_int (getenv env "NPORT2_PORT" "4002") with
  | None => SysExit 1
  | Some nport2_port =>
  let listen_host := getenv env "LISTEN_HOST" "0.0.0.0" in
  match py_int (getenv env "LISTEN_PORT" "5020") with
  | None => SysExit 1
  | Some listen_port =>
  match py_int (getenv env "MODBUS_TIMEOUT" "3") with
  | None => SysExit 1
  | Some timeout =>
      Loaded (Config nport1_host nport1_port nport2_host nport2_port
                     listen_host listen_port timeout)
  end end end end.

(** The names of the settings read with [int]. *)
Definition numeric_settings : list string :=
  ["NPORT1_PORT"; "NPORT2_PORT"; "LISTEN_PORT"; "MODBUS_TIMEOUT"]%string.

(** How the process goes on after [main] has started it. *)
Inductive started :=
| Exits (status : Z)                 (* SystemExit leaves asyncio.run *)
| Stops                              (* run() returns: NPort 1 could not be reached *)
| Serves (c : config) (s : system).  (* the gather of l.293 is running *)

(** [main], l.346-360, with the start of [run]: the configuration is loaded
    before the bridge is built and before any connection is opened. *)
Definition main (env : gmap string string) (r1 r2 : awaited conn)
  : started * list event :=
  match load_config env with
  | SysExit status => (Exits status, [])
  | Loaded c =>
      match boot r1 r2 with
      | (Some s, evs) => (Serves c s, evs)
      | (None, evs) => (Stops, evs)
      end
  end.

(** ** Notions the statements use *)

(** *** Configuration *)

(** The documented defaults. *)
Definition default_config : config :=
  {| nport1_host := "192.168.1.100"; nport1_port := 4001;
     nport2_host := "192.168.1.101"; nport2_port := 4002;
     listen_host := "0.0.0.0"; listen_port := 5020;
     timeout := 3 |}.

(** The names of all the settings [load_config] reads. *)
Definition settings : list string :=
  ["NPORT1_HOST"; "NPORT1_PORT"; "NPORT2_HOST"; "NPORT2_PORT";
   "LISTEN_HOST"; "LISTEN_PORT"; "MODBUS_TIMEOUT"]%string.

(** A character that is no digit, underscore, sign or white space. *)
Definition foreign (c : ascii) : Prop :=
  is_space c = false /\ digit_value c = None /\
  c <> "_"%char /\ c <> "+"%char /\ c <> "-"%char.

(** *** Outcomes *)

(** The awaited operation completed: a drain, a sleep, the lock's acquire,
    or the first scheduling of a task. *)
Definition resumed : outcome := ODone (Got ()).

(** The outcome "the awaited operation raised [e]". *)
Definition raised (o : outcome) (e : exn) : Prop :=
  o = OConn (Threw e) \/ o = ORead (Threw e) \/ o = ODone (Threw e).

(** The awaited operation of the exchange failed: the drain of the write
    raised an [Exception] (a time-out too: l.137 and l.219 are outside the
    inner [try]), or the read of the reply raised an [Exception] other than
    the time-out, which l.156 and l.239 treat as "no reply". *)
Definition exchange_failure (o : outcome) : bool :=
  match o with
  | ODone (Threw e) => is_Exception e
  | ORead (Threw e) => is_Exception e && negb (is_TimeoutError e)
  | _ => false
  end.

(** The call writes reply bytes to a client or to NPort 2. *)
Definition delivers (ev : event) : bool :=
  match ev with WriteClient _ | Write2 _ => true | _ => false end.

(** *** Program points *)

(** How many awaits of the lock block are still ahead, at most. *)
Definition client_rank (pc : client_pc) : nat :=
  match pc with CDrain => 3 | CRecv => 2 | CReply => 1 | _ => 0 end.

Definition sec_rank (pc : sec_pc) : nat :=
  match pc with SDrain => 3 | SRecv => 2 | SReply => 1 | _ => 0 end.

Definition cs_rank (s : system) (t : task) : nat :=
  match t with
  | TClient i => from_option client_rank 0 (clients s !! i)
  | TSecondary => sec_rank (secondary s)
  end.

(** Suspended on the first [await] of the loop body: the session is open,
    the NPort 2 loop is running. *)
Definition client_at_loop (pc : client_pc) : bool :=
  match pc with CRead => true | _ => false end.

Definition sec_at_loop (pc : sec_pc) : bool :=
  match pc with SRead2 | SConnect2 => true | _ => false end.

Definition at_loop : system -> task -> bool := task_at client_at_loop sec_at_loop.

(** Suspended on the drain of the reply, to the client or to NPort 2. *)
Definition client_replying_pc (pc : client_pc) : bool :=
  match pc with CReply => true | _ => false end.

Definition sec_replying_pc (pc : sec_pc) : bool :=
  match pc with SReply => true | _ => false end.

Definition replying : system -> task -> bool :=
  task_at client_replying_pc sec_replying_pc.

(** *** Example runs *)

(** The request and the reply of the end-to-end scenario. *)
Definition request : bytes := [x01; x03; x00; x00; x00; x02].
Definition response : bytes := [x01; x03; x04; x00; x00; x00; x00].

(** Both gateways answer at start-up. *)
Definition booted : system :=
  {| br := Bridge (Some 1) (Some 1) (Some 2) (Some 2) false true;
     clients := []; secondary := SStart |}.

(** A client connects and sends [request]; the session takes the lock,
    writes to NPort 1 and waits for the drain. *)
Definition to_client_drain : list action :=
  [Accept; Client 0 resumed; Client 0 (ORead (Got request)); Client 0 resumed].

(** ... then NPort 1 answers [response], and the session is writing it back
    to the client. *)
Definition to_client_reply : list action :=
  to_client_drain ++ [Client 0 resumed; Client 0 (ORead (Got response))].

(** ... or the drain fails instead, and the client sends [request] again:
    the session has to connect to NPort 1 anew. *)
Definition to_client_reconnect : list action :=
  to_client_drain ++
  [Client 0 (ODone (Threw OtherException)); Client 0 (ORead (Got request))].

(** The same for a request that arrives from NPort 2. *)
Definition to_sec_drain : list action :=
  [Secondary resumed; Secondary (ORead (Got request)); Secondary resumed].

Definition to_sec_reply : list action :=
  to_sec_drain ++ [Secondary resumed; Secondary (ORead (Got response))].

(** The states these runs end in. *)
Definition client_draining : system :=
  {| br := Bridge (Some 1) (Some 1) (Some 2) (Some 2) true true;
     clients := [CDrain]; secondary := SStart |}.

Definition client_replying : system :=
  {| br := Bridge (Some 1) (Some 1) (Some 2) (Some 2) true true;
     clients := [CReply]; secondary := SStart |}.

Definition client_reconnecting : system :=
  {| br := Bridge None None (Some 2) (Some 2) false true;
     clients := [CConnect request]; secondary := SStart |}.

Definition sec_draining : system :=
  {| br := Bridge (Some 1) (Some 1) (Some 2) (Some 2) true true;
     clients := []; secondary := SDrain |}.

Definition sec_replying : system :=
  {| br := Bridge (Some 1) (Some 1) (Some 2) (Some 2) true true;
     clients := []; secondary := SReply |}.

(** A second session has sent [request] and waits for the lock, which the
    first one holds. *)
Definition two_sessions : system :=
  {| br := br client_draining; clients := [CDrain; CAcquire request];
     secondary := SStart |}.

(** *** Case analysis on a step *)

(** Unfolds the handlers in a hypothesis [H : client_step ... = Some ...] or
    [H : sec_step ... = Some ...] and splits it into the outcomes. *)
Ltac unfold_step H :=
  unfold client_step, client_reply_raise, client_exchange_raise,
    client_session_raise, client_loop, client_finally,
    sec_step, sec_reply_raise, sec_exchange_raise, sec_loop_raise,
    sec_drop_nport2, sec_loop, connect_nport1, connect_nport2 in H.

Ltac step_cases H :=
  unfold_step H; repeat case_match; simplify_eq.

(** *** Runs with their network calls *)

(** [run_actions], keeping the network calls of the steps, in order. *)
Fixpoint run_trace (s : system) (acts : list action)
  : option (system * list event) :=
  match acts with
  | [] => Some (s, [])
  | a :: acts' =>
      match sys_step s a with
      | Some (s', evs) =>
          match run_trace s' acts' with
          | Some (s'', evs') => Some (s'', evs ++ evs')
          | None => None
          end
      | None => None
      end
  end.

(** The read returned no bytes, or raised. *)
Definition read_ended (r : awaited bytes) : Prop :=
  r = Got [] \/ exists e, r = Threw e.

(** The read from NPort 2 returned no bytes, or raised an [Exception] that
    is no time-out. *)
Definition nport2_lost (r : awaited bytes) : Prop :=
  r = Got [] \/
  exists e, r = Threw e /\ is_Exception e = true /\ is_TimeoutError e = false.

(** [wait_closed] returned, or raised an [Exception]. *)
Definition close_settled (r : awaited unit) : Prop :=
  r = Got () \/ exists e, r = Threw e /\ is_Exception e = true.

(** NPort 1 gave no reply: the read timed out, or returned no bytes. *)
Definition no_reply (r : awaited bytes) : Prop :=
  r = Threw TimeoutError \/ r = Got [].

(** The action is [cleanup], or cancels the NPort 2 loop. *)
Definition stops_or_cancels (a : action) : Prop :=
  a = Shutdown \/ exists o, a = Secondary o /\ raised o CancelledError.

(** ** The configuration tests of [test_bridge.py] *)

(** How a test function ends for the [main] of the test script: it returns
    [True]; it returns [False] or an assertion fails; or [SystemExit] leaves
    it, which [main] does not catch. *)
Inductive verdict :=
| Passed
| Failed
| Exited (status : Z).

(** [os.environ[key] = value], for each pair in turn. *)
Definition setenv_all (kvs : list (string * string)) (env : gmap string string)
  : gmap string string :=
  fold_left (fun m kv => <[kv.1 := kv.2]> m) kvs env.

(** [if key in os.environ: del os.environ[key]], for each key in turn. *)
Definition unsetenv_all (keys : list string) (env : gmap string string)
  : gmap string string :=
  fold_left (fun m key => delete key m) keys env.

(** The values [test_config_loading] sets, l.52-58. *)
Definition loading_values : list (string * string) :=
  [("NPORT1_HOST", "10.0.0.10"); ("NPORT1_PORT", "5001");
   ("NPORT2_HOST", "10.0.0.20"); ("NPORT2_PORT", "5002");
   ("LISTEN_HOST", "127.0.0.1"); ("LISTEN_PORT", "6000");
   ("MODBUS_TIMEOUT", "5")]%string.

(** The assertions of [test_config_loading], l.62-68. *)
Definition loading_asserts (c : config) : bool :=
  String.eqb (nport1_host c) "10.0.0.10" && Z.eqb (nport1_port c) 5001 &&
  String.eqb (nport2_host c) "10.0.0.20" && Z.eqb (nport2_port c) 5002 &&
  String.eqb (listen_host c) "127.0.0.1" && Z.eqb (listen_port c) 6000 &&
  Z.eqb (timeout c) 5.

(** [test_config_loading], l.45-80, with the environment it leaves: the
    variables are removed after the assertions, not in a [finally]. *)
Definition test_config_loading (env : gmap string string)
  : verdict * gmap string string :=
  let env1 := setenv_all loading_values env in
  match load_config env1 with
  | SysExit status => (Exited status, env1)
  | Loaded c =>
      if loading_asserts c then (Passed, unsetenv_all settings env1)
      else (Failed, env1)
  end.

(** The assertions of [test_config_defaults], l.91-97. *)
Definition defaults_asserts (c : config) : bool :=
  String.eqb (nport1_host c) "192.168.1.100" && Z.eqb (nport1_port c) 4001 &&
  String.eqb (nport2_host c) "192.168.1.101" && Z.eqb (nport2_port c) 4002 &&
  String.eqb (listen_host c) "0.0.0.0" && Z.eqb (listen_port c) 5020 &&
  Z.eqb (timeout c) 3.

(** [test_config_defaults], l.83-103; it leaves the environment alone. *)
Definition test_config_defaults (env : gmap string string) : verdict :=
  match load_config env with
  | SysExit status => Exited status
  | Loaded c => if defaults_asserts c then Passed else Failed
  end.

(** [test_config_validation], l.106-127: [SystemExit] is what the test
    expects; the [finally] removes the variable either way. *)
Definition test_config_validation (env : gmap string string)
  : verdict * gmap string string :=
  let env1 := <["NPORT1_PORT" := "invalid"]> env in
  match load_config env1 with
  | SysExit _ => (Passed, delete "NPORT1_PORT" env1)
  | Loaded _ => (Failed, delete "NPORT1_PORT" env1)
  end.

(** *** End of stream from NPort 1 *)

(** After [to_client_drain] the write has drained: the session waits for
    the reply of NPort 1. *)
Definition to_client_recv : list action :=
  to_client_drain ++ [Client 0 resumed].

Definition client_receiving : system :=
  {| br := Bridge (Some 1) (Some 1) (Some 2) (Some 2) true true;
     clients := [CRecv]; secondary := SStart |}.

(** The session waits for its next chunk; the bridge holds connection 1 to
    NPort 1 and the lock is free. *)
Definition client_waiting : system :=
  {| br := Bridge (Some 1) (Some 1) (Some 2) (Some 2) false true;
     clients := [CRead]; secondary := SStart |}.

(** The same for the NPort 2 loop. *)
Definition sec_receiving : system :=
  {| br := Bridge (Some 1) (Some 1) (Some 2) (Some 2) true true;
     clients := []; secondary := SRecv |}.

Definition sec_waiting : system :=
  {| br := Bridge (Some 1) (Some 1) (Some 2) (Some 2) false true;
     clients := []; secondary := SRead2 |}.

(** * Properties *)

(** ** Configuration *)

Lemma getenv_unset (env : gmap string string) (key dflt : string) :
  env !! key = None -> getenv env key dflt = dflt.
Proof. intros H. unfold getenv. by rewrite H. Qed.

Lemma getenv_set (env : gmap string string) (key dflt v : string) :
  env !! key = Some v -> getenv env key dflt = v.
Proof. intros H. unfold getenv. by rewrite H. Qed.

(** *** What [int] refuses *)

Lemma skip_space_keeps (s : list ascii) (c : ascii) :
  c ∈ s -> is_space c = false -> c ∈ skip_space s.
Proof.
  induction s as [| x s IH]; intros Hin Hc; [done |]. simpl.
  destruct (is_space x) eqn:Hx; [| done].
  apply elem_of_cons in Hin as [-> | Hin]; [congruence | auto].
Qed.

Lemma scan_digits_keeps (s : list ascii) :
  forall prev_us n acc v m rest c,
    scan_digits prev_us n acc s = Some (v, m, rest) ->
    c ∈ s -> digit_value c = None -> c <> "_"%char -> c ∈ rest.
Proof.
  induction s as [| x s IH]; intros prev_us n acc v m rest c H Hin Hd Hu.
  - by apply elem_of_nil in Hin.
  - simpl in H. destruct (digit_value x) as [d |] eqn:Hx.
    + apply elem_of_cons in Hin as [-> | Hin]; [congruence | eauto].
    + destruct (Ascii.eqb x "_") eqn:Hxu.
      * apply Ascii.eqb_eq in Hxu as ->.
        destruct prev_us; [done |].
        apply elem_of_cons in Hin as [-> | Hin]; [done | eauto].
      * destruct prev_us; [done |]. by simplify_eq.
Qed.

(** [int] raises [ValueError] on every string with such a character, and on
    the empty string. *)
Lemma py_int_foreign (s : string) (c : ascii) :
  c ∈ list_ascii_of_string s -> foreign c -> py_int s = None.
Proof.
  intros Hin (Hsp & Hd & Hu & Hplus & Hminus). unfold py_int.
  apply skip_space_keeps in Hin; [| done].
  set (s1 := skip_space (list_ascii_of_string s)) in *.
  set (p := match s1 with
            | "+"%char :: t => (false, t)
            | "-"%char :: t => (true, t)
            | _ => (false, s1)
            end).
  assert (Hin2 : c ∈ p.2).
  { subst p. destruct s1 as [| x t]; [done |].
    destruct (decide (x = "+"%char)) as [-> | Hx1].
    { simpl. apply elem_of_cons in Hin as [-> | Hin]; done. }
    destruct (decide (x = "-"%char)) as [-> | Hx2].
    { simpl. apply elem_of_cons in Hin as [-> | Hin]; done. }
    repeat case_match; simplify_eq; done. }
  destruct p as [neg s2]. simpl in Hin2.
  destruct (scan_digits false 0 0 s2) as [[[v n] rest] |] eqn:Hscan.
  - pose proof (scan_digits_keeps _ _ _ _ _ _ _ c Hscan Hin2 Hd Hu) as Hr.
    apply skip_space_keeps in Hr; [| done].
    destruct (skip_space rest); [by apply elem_of_nil in Hr |].
    repeat case_match; done.
  - repeat case_match; done.
Qed.

Lemma py_int_empty : py_int "" = None.
Proof. reflexivity. Qed.

(** The test of [test_config_validation]. *)
Example load_config_invalid_port :
  load_config (<["NPORT1_PORT" := "invalid"]> ∅) = SysExit 1.
Proof. reflexivity. Qed.

(** The test of [test_config_loading]. *)
Example load_config_override :
  load_config (list_to_map
    [("NPORT1_HOST", "10.0.0.10"); ("NPORT1_PORT", "5001");
     ("NPORT2_HOST", "10.0.0.20"); ("NPORT2_PORT", "5002");
     ("LISTEN_HOST", "127.0.0.1"); ("LISTEN_PORT", "6000");
     ("MODBUS_TIMEOUT", "5")]%string)
  = Loaded {| nport1_host := "10.0.0.10"; nport1_port := 5001;
              nport2_host := "10.0.0.20"; nport2_port := 5002;
              listen_host := "127.0.0.1"; listen_port := 6000;
              timeout := 5 |}.
Proof. reflexivity. Qed.

(** C8. If one of the settings read with [int] (NPORT1_PORT, NPORT2_PORT,
    LISTEN_PORT, MODBUS_TIMEOUT) is set to a value [int] refuses, then
    [load_config] does not return a configuration: it ends in [sys.exit(1)];
    and [main] exits with that status, 1, without having made any network
    call. *)
Theorem load_config_rejects_non_numeric
    (env : gmap string string) (key v : string) :
  key ∈ numeric_settings ->
  env !! key = Some v ->
  py_int v = None ->
  load_config env = SysExit 1 /\
  (forall c, load_config env <> Loaded c) /\
  forall r1 r2, main env r1 r2 = (Exits 1, []).
Proof.
  intros Hkey Hv Hbad.
  assert (Hexit : load_config env = SysExit 1).
  { unfold numeric_settings in Hkey.
    repeat (apply elem_of_cons in Hkey as [-> | Hkey]);
      [ | | | | by apply elem_of_nil in Hkey ];
      unfold load_config;
      rewrite (getenv_set _ _ _ _ Hv), Hbad;
      repeat case_match; reflexivity. }
  split; [exact Hexit |].
  split; [intros c Hc; congruence |].
  intros r1 r2. unfold main. by rewrite Hexit.
Qed.

Lemma load_config_rejects_non_numeric_witness :
  load_config (<["LISTEN_PORT" := "50x20"]> ∅) = SysExit 1 /\
  main (<["LISTEN_PORT" := "50x20"]> ∅) (Got 1%nat) (Got 2%nat) = (Exits 1, []).
Proof.
  pose proof (load_config_rejects_non_numeric
                (<["LISTEN_PORT" := "50x20"]> ∅) "LISTEN_PORT" "50x20") as H.
  destruct H as (H1 & _ & H2).
  - unfold numeric_settings. do 2 apply list_elem_of_further. apply list_elem_of_here.
  - reflexivity.
  - reflexivity.
  - split; [exact H1 | apply H2].
Defined.

(** C9. When none of the settings is in the environment, the configuration
    loaded is the default one: NPort 1 at 192.168.1.100:4001, NPort 2 at
    192.168.1.101:4002, listening on 0.0.0.0:5020, timeout 3. *)
Theorem load_config_defaults (env : gmap string string) :
  (forall key, key ∈ settings -> env !! key = None) ->
  load_config env = Loaded default_config.
Proof.
  intros Hunset. unfold load_config.
  rewrite !getenv_unset by (apply Hunset; unfold settings; set_solver).
  reflexivity.
Qed.

Lemma load_config_defaults_witness :
  load_config (<["PATH" := "/usr/bin"]> ∅) = Loaded default_config.
Proof.
  apply load_config_defaults.
  intros key Hkey. apply lookup_insert_None. split; [apply lookup_empty |].
  intros <-. unfold settings in Hkey.
  repeat (apply elem_of_cons in Hkey as [Hkey | Hkey]; [discriminate Hkey |]).
  by apply elem_of_nil in Hkey.
Defined.

(** ** Connecting *)

(** C7. [ensure_nport1_connected] on a bridge whose two NPort 1 handles are
    there opens no connection, returns [True] and leaves the bridge as it
    is; on a bridge whose two handles are absent it opens exactly one
    connection, and afterwards the handles are there exactly when that
    attempt succeeded (then it returns [True] and both handles are the new
    connection; otherwise the bridge is unchanged). *)
Theorem ensure_nport1_connected_idempotent (r : awaited conn) (b : bridge) :
  (nport1_connected b = true ->
     ensure_nport1_connected r b = (Return true, b, [])) /\
  (nport1_reader b = None -> nport1_writer b = None ->
     exists res b',
       ensure_nport1_connected r b = (res, b', [Open1]) /\
       (nport1_connected b' = true <-> exists c, r = Got c) /\
       (forall c, r = Got c ->
          res = Return true /\
          nport1_reader b' = Some c /\ nport1_writer b' = Some c) /\
       (forall e, r = Threw e -> b' = b /\ res <> Return true)).
Proof.
  split.
  - intros Hc. unfold ensure_nport1_connected. by rewrite Hc.
  - intros Hr Hw.
    assert (Hn : nport1_connected b = false)
      by (unfold nport1_connected; by rewrite Hw).
    unfold ensure_nport1_connected. rewrite Hn.
    destruct r as [c | e]; simpl.
    + eexists _, _. split; [reflexivity |].
      repeat split; eauto; try congruence; intros; simplify_eq; done.
    + exists (if is_Exception e then Return false else Raise e), b.
      split; [by destruct (is_Exception e) |].
      repeat split.
      * congruence.
      * intros [c Hc]. discriminate Hc.
      * discriminate.
      * discriminate.
      * discriminate.
      * by destruct (is_Exception e).
Qed.

Lemma ensure_nport1_connected_idempotent_witness :
  ensure_nport1_connected (Threw OtherException)
    (Bridge (Some 1) (Some 1) None None false true)
  = (Return true, Bridge (Some 1) (Some 1) None None false true, []) /\
  exists res b',
    ensure_nport1_connected (Got 7) (Bridge None None None None false true)
    = (res, b', [Open1]) /\ nport1_connected b' = true.
Proof.
  split.
  - apply (ensure_nport1_connected_idempotent (Threw OtherException)
             (Bridge (Some 1) (Some 1) None None false true)).
    reflexivity.
  - destruct (ensure_nport1_connected_idempotent (Got 7)
                (Bridge None None None None false true)) as [_ H].
    destruct (H eq_refl eq_refl) as (res & b' & Heq & Hiff & _).
    exists res, b'. split; [exact Heq |]. apply Hiff. by exists 7.
Defined.

(** ** The handles of an endpoint go together *)

Lemma paired_set_bus_lock (l : bool) (b : bridge) :
  paired b -> paired (set_bus_lock l b).
Proof. by intros [??]. Qed.

Lemma paired_set_running (r : bool) (b : bridge) :
  paired b -> paired (set_running r b).
Proof. by intros [??]. Qed.

Lemma paired_clear_nport1 (b : bridge) : paired b -> paired (clear_nport1 b).
Proof. by intros [??]. Qed.

Lemma paired_clear_nport2 (b : bridge) : paired b -> paired (clear_nport2 b).
Proof. by intros [??]. Qed.

(** A connection attempt sets both handles of its endpoint, or none. *)
Lemma connect_nport1_paired (r : awaited conn) (b : bridge) :
  paired b -> paired (snd (connect_nport1 r b)).
Proof.
  intros [H1 H2]. destruct r as [c | e]; simpl.
  - by split.
  - by destruct (is_Exception e).
Qed.

Lemma connect_nport2_paired (r : awaited conn) (b : bridge) :
  paired b -> paired (snd (connect_nport2 r b)).
Proof.
  intros [H1 H2]. destruct r as [c | e]; simpl.
  - by split.
  - by destruct (is_Exception e).
Qed.

Lemma connect_nport1_failed (e : exn) (b : bridge) :
  snd (connect_nport1 (Threw e) b) = b.
Proof. simpl. by destruct (is_Exception e). Qed.

Lemma connect_nport2_failed (e : exn) (b : bridge) :
  snd (connect_nport2 (Threw e) b) = b.
Proof. simpl. by destruct (is_Exception e). Qed.

Create HintDb bridge.
#[local] Hint Resolve paired_set_bus_lock paired_set_running
  paired_clear_nport1 paired_clear_nport2 : bridge.

Lemma client_step_paired b pc o b' pc' evs :
  paired b -> client_step b pc o = Some (b', pc', evs) -> paired b'.
Proof.
  intros Hp H. step_cases H; unfold release; auto 6 with bridge;
    destruct Hp; by split.
Qed.

Lemma sec_step_paired b pc o b' pc' evs :
  paired b -> sec_step b pc o = Some (b', pc', evs) -> paired b'.
Proof.
  intros Hp H. step_cases H; unfold release; auto 6 with bridge;
    destruct Hp; by split.
Qed.

Lemma sys_step_paired s a s' evs :
  paired (br s) -> sys_step s a = Some (s', evs) -> paired (br s').
Proof.
  intros Hp H. destruct a as [| i o | o |]; simpl in H.
  - by simplify_eq.
  - destruct (clients s !! i) as [pc |]; [| done].
    destruct (client_step (br s) pc o) as [[[b' pc'] evs'] |] eqn:Hs; [| done].
    simplify_eq. simpl. eauto using client_step_paired.
  - destruct (sec_step (br s) (secondary s) o) as [[[b' pc'] evs'] |] eqn:Hs;
      [| done].
    simplify_eq. simpl. eauto using sec_step_paired.
  - simplify_eq. simpl. auto with bridge.
Qed.

Lemma boot_paired r1 r2 s0 : fst (boot r1 r2) = Some s0 -> paired (br s0).
Proof.
  unfold boot. intros H.
  destruct r1 as [c1 | e1]; simpl in H;
    [| destruct (is_Exception e1); discriminate H].
  destruct r2 as [c2 | e2]; simpl in H.
  - by simplify_eq.
  - destruct (is_Exception e2); simpl in H; by simplify_eq.
Qed.

(** Induction over the run that reaches a state. *)
Lemma reachable_ind (P : system -> Prop) :
  (forall r1 r2 s0, fst (boot r1 r2) = Some s0 -> P s0) ->
  (forall s a s' evs, P s -> sys_step s a = Some (s', evs) -> P s') ->
  forall s, reachable s -> P s.
Proof.
  intros Hboot Hstep s (r1 & r2 & s0 & acts & Hb & Hrun).
  apply Hboot in Hb. clear r1 r2.
  revert s0 Hb Hrun. induction acts as [| a acts IH]; intros s0 Hb Hrun.
  - simpl in Hrun. by simplify_eq.
  - simpl in Hrun.
    destruct (sys_step s0 a) as [[s1 evs] |] eqn:Hs; [| done].
    eauto.
Qed.

Lemma reachable_step s a s' evs :
  reachable s -> sys_step s a = Some (s', evs) -> reachable s'.
Proof.
  intros (r1 & r2 & s0 & acts & Hb & Hrun) Hs.
  exists r1, r2, s0, (acts ++ [a]). split; [done |].
  clear Hb. revert s0 Hrun.
  induction acts as [| a0 acts IH]; intros s0 Hrun; simpl in *.
  - simplify_eq. by rewrite Hs.
  - destruct (sys_step s0 a0) as [[s1 evs1] |]; [| done]. auto.
Qed.

(** C10. In every state the running bridge can reach, the reader and the
    writer handle of NPort 1 are both there or both absent, and so are those
    of NPort 2: a connection attempt sets both or none, and every path that
    drops a connection clears both in the same step. *)
Theorem handles_paired (s : system) : reachable s -> paired (br s).
Proof.
  revert s. apply (reachable_ind (fun s => paired (br s))).
  - apply boot_paired.
  - intros s0 a s1 evs. apply sys_step_paired.
Qed.

(** ** Example runs *)

Lemma reachable_run r1 r2 s0 acts s :
  fst (boot r1 r2) = Some s0 -> run_actions s0 acts = Some s -> reachable s.
Proof. intros Hb Hr. by exists r1, r2, s0, acts. Defined.

Lemma booted_reachable : reachable booted.
Proof. by apply (reachable_run (Got 1) (Got 2) booted []). Defined.

Lemma client_draining_reachable : reachable client_draining.
Proof. by apply (reachable_run (Got 1) (Got 2) booted to_client_drain). Defined.

Lemma client_replying_reachable : reachable client_replying.
Proof. by apply (reachable_run (Got 1) (Got 2) booted to_client_reply). Defined.

Lemma sec_draining_reachable : reachable sec_draining.
Proof. by apply (reachable_run (Got 1) (Got 2) booted to_sec_drain). Defined.

Lemma sec_replying_reachable : reachable sec_replying.
Proof. by apply (reachable_run (Got 1) (Got 2) booted to_sec_reply). Defined.

Lemma handles_paired_witness : paired (br client_replying).
Proof. apply handles_paired. exact client_replying_reachable. Defined.

(** ** The lock and the tasks inside its block *)

Lemma count_cs_app (l1 l2 : list client_pc) :
  count_cs (l1 ++ l2) = count_cs l1 + count_cs l2.
Proof. induction l1 as [| pc l1 IH]; simpl; [done | rewrite IH; lia]. Qed.

Lemma count_cs_insert (l : list client_pc) (i : nat) (pc pc' : client_pc) :
  l !! i = Some pc ->
  count_cs (<[i := pc']> l) + (if client_in_cs pc then 1 else 0)
  = count_cs l + (if client_in_cs pc' then 1 else 0).
Proof.
  revert i. induction l as [| x l IH]; intros i Hi; [done |].
  destruct i as [| i]; simpl in *.
  - simplify_eq. lia.
  - specialize (IH i Hi). lia.
Qed.

Lemma count_cs_lookup (l : list client_pc) (i : nat) (pc : client_pc) :
  l !! i = Some pc -> client_in_cs pc = true -> 1 <= count_cs l.
Proof.
  revert i. induction l as [| x l IH]; intros i Hi Hcs; [done |].
  destruct i as [| i]; simpl in *.
  - simplify_eq. rewrite Hcs. lia.
  - specialize (IH i Hi Hcs). lia.
Qed.

Lemma count_cs_lookup2 (l : list client_pc) (i j : nat) (pi pj : client_pc) :
  i <> j -> l !! i = Some pi -> l !! j = Some pj ->
  client_in_cs pi = true -> client_in_cs pj = true -> 2 <= count_cs l.
Proof.
  revert i j. induction l as [| x l IH]; intros i j Hne Hi Hj Hci Hcj; [done |].
  destruct i as [| i], j as [| j]; simpl in *; simplify_eq.
  - rewrite Hci. pose proof (count_cs_lookup l j pj Hj Hcj). lia.
  - rewrite Hcj. pose proof (count_cs_lookup l i pi Hi Hci). lia.
  - assert (i <> j) by congruence.
    specialize (IH i j ltac:(done) Hi Hj Hci Hcj). lia.
Qed.

(** A step moves its task into the block exactly when it takes the lock, and
    out of it exactly when it releases it. *)
Lemma client_step_lock b pc o b' pc' evs :
  (client_in_cs pc = true -> bus_lock b = true) ->
  client_step b pc o = Some (b', pc', evs) ->
  (if bus_lock b' then 1 else 0) + (if client_in_cs pc then 1 else 0)
  = (if bus_lock b then 1 else 0) + (if client_in_cs pc' then 1 else 0).
Proof.
  intros Hcs H. step_cases H; simpl in *;
    first [done | congruence | by specialize (Hcs eq_refl)].
Qed.

Lemma sec_step_lock b pc o b' pc' evs :
  (sec_in_cs pc = true -> bus_lock b = true) ->
  sec_step b pc o = Some (b', pc', evs) ->
  (if bus_lock b' then 1 else 0) + (if sec_in_cs pc then 1 else 0)
  = (if bus_lock b then 1 else 0) + (if sec_in_cs pc' then 1 else 0).
Proof.
  intros Hcs H. step_cases H; simpl in *;
    first [done | congruence | by specialize (Hcs eq_refl)].
Qed.

Lemma sys_step_lock_inv s a s' evs :
  lock_inv s -> sys_step s a = Some (s', evs) -> lock_inv s'.
Proof.
  unfold lock_inv, holders. intros Hinv H.
  destruct a as [| i o | o |]; simpl in H.
  - simplify_eq. simpl. rewrite count_cs_app. simpl. lia.
  - destruct (clients s !! i) as [pc |] eqn:Hi; [| done].
    destruct (client_step (br s) pc o) as [[[b' pc'] evs'] |] eqn:Hs; [| done].
    simplify_eq. simpl.
    pose proof (count_cs_insert _ _ _ pc' Hi) as Hc.
    assert (Hl : client_in_cs pc = true -> bus_lock (br s) = true).
    { intros Hcs. pose proof (count_cs_lookup _ _ _ Hi Hcs).
      destruct (bus_lock (br s)); [done |].
      destruct (sec_in_cs (secondary s)); lia. }
    pose proof (client_step_lock _ _ _ _ _ _ Hl Hs). lia.
  - destruct (sec_step (br s) (secondary s) o) as [[[b' pc'] evs'] |] eqn:Hs;
      [| done].
    simplify_eq. simpl.
    assert (Hl : sec_in_cs (secondary s) = true -> bus_lock (br s) = true).
    { intros Hcs. rewrite Hcs in Hinv.
      destruct (bus_lock (br s)); [done | lia]. }
    pose proof (sec_step_lock _ _ _ _ _ _ Hl Hs). lia.
  - by simplify_eq.
Qed.

Lemma boot_lock_inv r1 r2 s0 : fst (boot r1 r2) = Some s0 -> lock_inv s0.
Proof.
  unfold boot. intros H.
  destruct r1 as [c1 | e1]; simpl in H;
    [| destruct (is_Exception e1); discriminate H].
  destruct r2 as [c2 | e2]; simpl in H.
  - by simplify_eq.
  - destruct (is_Exception e2); simpl in H; by simplify_eq.
Qed.

Lemma reachable_lock_inv (s : system) : reachable s -> lock_inv s.
Proof.
  revert s. apply (reachable_ind lock_inv).
  - apply boot_lock_inv.
  - apply sys_step_lock_inv.
Qed.

Lemma task_at_client fc fs s i :
  task_at fc fs s (TClient i) = true ->
  exists pc, clients s !! i = Some pc /\ fc pc = true.
Proof.
  simpl. destruct (clients s !! i) as [pc |]; [| done]. simpl. eauto.
Qed.

Lemma on_primary_holds_lock s t : on_primary s t = true -> holds_lock s t = true.
Proof.
  destruct t as [i |]; simpl.
  - destruct (clients s !! i) as [[] |]; done.
  - by destruct (secondary s).
Qed.

Lemma holds_lock_locked s t :
  lock_inv s -> holds_lock s t = true -> bus_lock (br s) = true.
Proof.
  unfold lock_inv, holders. intros Hinv Ht.
  destruct (bus_lock (br s)); [done |].
  destruct t as [i |].
  - apply task_at_client in Ht as (pc & Hi & Hcs).
    pose proof (count_cs_lookup _ _ _ Hi Hcs). lia.
  - simpl in Ht. rewrite Ht in Hinv. lia.
Qed.

Lemma holds_lock_unique s t1 t2 :
  lock_inv s -> holds_lock s t1 = true -> holds_lock s t2 = true -> t1 = t2.
Proof.
  intros Hinv H1 H2.
  assert (Hle : holders s <= 1)
    by (rewrite Hinv; destruct (bus_lock (br s)); lia).
  unfold holders in Hle.
  destruct t1 as [i |], t2 as [j |]; [| | | done].
  - apply task_at_client in H1 as (pi & Hi & Hci).
    apply task_at_client in H2 as (pj & Hj & Hcj).
    destruct (decide (i = j)) as [-> | Hne]; [done |].
    pose proof (count_cs_lookup2 _ _ _ _ _ Hne Hi Hj Hci Hcj). lia.
  - apply task_at_client in H1 as (pi & Hi & Hci).
    pose proof (count_cs_lookup _ _ _ Hi Hci).
    simpl in H2. rewrite H2 in Hle. lia.
  - apply task_at_client in H2 as (pj & Hj & Hcj).
    pose proof (count_cs_lookup _ _ _ Hj Hcj).
    simpl in H1. rewrite H1 in Hle. lia.
Qed.

(** The write to NPort 1 is made in the step that takes the lock. *)
Lemma client_step_write1 b pc o b' pc' evs d :
  client_step b pc o = Some (b', pc', evs) -> Write1 d ∈ evs ->
  bus_lock b = false /\ bus_lock b' = true /\ client_on_primary pc' = true.
Proof.
  intros H Hin. step_cases H;
    repeat (apply elem_of_cons in Hin as [Hin | Hin]; [discriminate Hin |]);
    try (by apply elem_of_nil in Hin);
    apply list_elem_of_singleton in Hin; by simplify_eq.
Qed.

Lemma sec_step_write1 b pc o b' pc' evs d :
  sec_step b pc o = Some (b', pc', evs) -> Write1 d ∈ evs ->
  bus_lock b = false /\ bus_lock b' = true /\ sec_on_primary pc' = true.
Proof.
  intros H Hin. step_cases H;
    repeat (apply elem_of_cons in Hin as [Hin | Hin]; [discriminate Hin |]);
    try (by apply elem_of_nil in Hin);
    apply list_elem_of_singleton in Hin; by simplify_eq.
Qed.

Lemma sys_step_write1 s a s' evs d :
  sys_step s a = Some (s', evs) -> Write1 d ∈ evs ->
  exists t o, a = resume t o /\ bus_lock (br s) = false /\
              bus_lock (br s') = true /\ on_primary s' t = true.
Proof.
  intros H Hin. destruct a as [| i o | o |]; simpl in H.
  - simplify_eq. by apply elem_of_nil in Hin.
  - destruct (clients s !! i) as [pc |] eqn:Hi; [| done].
    destruct (client_step (br s) pc o) as [[[b' pc'] evs'] |] eqn:Hs; [| done].
    simplify_eq.
    destruct (client_step_write1 _ _ _ _ _ _ _ Hs Hin) as (H1 & H2 & H3).
    exists (TClient i), o. repeat split; try done. simpl.
    rewrite list_lookup_insert_eq by (by eapply lookup_lt_Some). done.
  - destruct (sec_step (br s) (secondary s) o) as [[[b' pc'] evs'] |] eqn:Hs;
      [| done].
    simplify_eq.
    destruct (sec_step_write1 _ _ _ _ _ _ _ Hs Hin) as (H1 & H2 & H3).
    by exists TSecondary, o.
  - simplify_eq. exfalso.
    destruct (present (nport1_writer (br s))),
             (present (nport2_writer (br s))); simpl in Hin;
      repeat (apply elem_of_cons in Hin as [Hin | Hin]; [discriminate Hin |]);
      by apply elem_of_nil in Hin.
Qed.

(** C1. In every state the running bridge can reach, whatever the number of
    client sessions: a task that is in an exchange with NPort 1 (its write
    is draining, or it waits for the reply) is inside the lock block and the
    lock is taken; at most one task is inside the lock block, so no two
    exchanges overlap; and a step that writes to NPort 1 is one that has
    just taken the lock, which was free. *)
Theorem mutual_exclusion (s : system) :
  reachable s ->
  (forall t, on_primary s t = true ->
     holds_lock s t = true /\ bus_lock (br s) = true) /\
  (forall t1 t2, holds_lock s t1 = true -> holds_lock s t2 = true -> t1 = t2) /\
  (forall a s' evs d, sys_step s a = Some (s', evs) -> Write1 d ∈ evs ->
     exists t o, a = resume t o /\ bus_lock (br s) = false /\
                 bus_lock (br s') = true /\ on_primary s' t = true).
Proof.
  intros Hr. pose proof (reachable_lock_inv s Hr) as Hinv.
  split; [| split].
  - intros t Ht. apply on_primary_holds_lock in Ht.
    eauto using holds_lock_locked.
  - intros t1 t2. by apply holds_lock_unique.
  - intros a s' evs d. apply sys_step_write1.
Qed.

Lemma mutual_exclusion_witness :
  holds_lock client_draining (TClient 0) = true /\
  bus_lock (br client_draining) = true /\
  forall t, holds_lock client_draining t = true -> TClient 0 = t.
Proof.
  destruct (mutual_exclusion client_draining client_draining_reachable)
    as (H1 & H2 & _).
  destruct (H1 (TClient 0) eq_refl) as [Ha Hb].
  split; [exact Ha |]. split; [exact Hb |].
  intros t Ht. exact (H2 (TClient 0) t Ha Ht).
Defined.

(** While one session is inside the block, a second one that wants the lock
    stays suspended. *)
Example second_session_waits :
  run_actions booted
    (to_client_drain ++
     [Accept; Client 1 resumed; Client 1 (ORead (Got request))])
  = Some {| br := br client_draining; clients := [CDrain; CAcquire request];
            secondary := SStart |} /\
  sys_step {| br := br client_draining; clients := [CDrain; CAcquire request];
              secondary := SStart |} (Client 1 resumed) = None.
Proof. split; reflexivity. Qed.

(** ** Steps of the system, seen from the task that takes them *)

Lemma sys_step_client_inv s i o s' evs :
  sys_step s (Client i o) = Some (s', evs) ->
  exists pc b' pc',
    clients s !! i = Some pc /\
    client_step (br s) pc o = Some (b', pc', evs) /\
    s' = {| br := b'; clients := <[i := pc']> (clients s);
            secondary := secondary s |} /\
    clients s' !! i = Some pc'.
Proof.
  simpl. intros H.
  destruct (clients s !! i) as [pc |] eqn:Hi; [| done].
  destruct (client_step (br s) pc o) as [[[b' pc'] evs'] |] eqn:Hs; [| done].
  simplify_eq. exists pc, b', pc'. repeat split; try done. simpl.
  apply list_lookup_insert_eq. by eapply lookup_lt_Some.
Qed.

Lemma sys_step_secondary_inv s o s' evs :
  sys_step s (Secondary o) = Some (s', evs) ->
  exists b' pc',
    sec_step (br s) (secondary s) o = Some (b', pc', evs) /\
    s' = {| br := b'; clients := clients s; secondary := pc' |}.
Proof.
  simpl. intros H.
  destruct (sec_step (br s) (secondary s) o) as [[[b' pc'] evs'] |] eqn:Hs;
    [| done].
  simplify_eq. by exists b', pc'.
Qed.

Lemma sys_step_client_intro s i o pc b' pc' evs :
  clients s !! i = Some pc ->
  client_step (br s) pc o = Some (b', pc', evs) ->
  sys_step s (Client i o)
  = Some ({| br := b'; clients := <[i := pc']> (clients s);
             secondary := secondary s |}, evs).
Proof. intros Hi Hs. simpl. by rewrite Hi, Hs. Qed.

Lemma sys_step_secondary_intro s o b' pc' evs :
  sec_step (br s) (secondary s) o = Some (b', pc', evs) ->
  sys_step s (Secondary o)
  = Some ({| br := b'; clients := clients s; secondary := pc' |}, evs).
Proof. intros Hs. simpl. by rewrite Hs. Qed.

(** A step leaves the program points of the other tasks as they are. *)
Lemma sys_step_other_task s t o s' evs fc fs t' :
  sys_step s (resume t o) = Some (s', evs) -> t' <> t ->
  task_at fc fs s' t' = task_at fc fs s t'.
Proof.
  intros Hs Hne. destruct t as [i |].
  - apply sys_step_client_inv in Hs as (pc & b' & pc' & Hi & Hs & -> & Hi').
    destruct t' as [j |]; simpl; [| done].
    rewrite list_lookup_insert_ne by congruence. done.
  - apply sys_step_secondary_inv in Hs as (b' & pc' & Hs & ->).
    by destruct t' as [j |].
Qed.

(** ** Leaving the lock block *)

Lemma client_step_in_cs b pc o b' pc' evs :
  client_in_cs pc = true ->
  client_step b pc o = Some (b', pc', evs) ->
  (client_in_cs pc' = true /\ client_rank pc' < client_rank pc) \/
  (client_in_cs pc' = false /\ bus_lock b' = false).
Proof.
  intros Hcs H. destruct pc; try discriminate Hcs;
    step_cases H; simpl; first [left; split; [done | lia] | by right].
Qed.

Lemma sec_step_in_cs b pc o b' pc' evs :
  sec_in_cs pc = true ->
  sec_step b pc o = Some (b', pc', evs) ->
  (sec_in_cs pc' = true /\ sec_rank pc' < sec_rank pc) \/
  (sec_in_cs pc' = false /\ bus_lock b' = false).
Proof.
  intros Hcs H. destruct pc; try discriminate Hcs;
    step_cases H; simpl; first [left; split; [done | lia] | by right].
Qed.

(** An exception raised inside the block ends the block at once. *)
Lemma client_step_in_cs_raise b pc e :
  client_in_cs pc = true ->
  exists o b' pc' evs,
    raised o e /\ client_step b pc o = Some (b', pc', evs) /\
    client_in_cs pc' = false /\ bus_lock b' = false.
Proof.
  intros Hcs. destruct pc; try discriminate Hcs.
  - exists (ODone (Threw e)). unfold raised.
    destruct e, (running b) eqn:Hr; simpl;
      unfold client_exchange_raise, client_session_raise, client_loop; simpl;
      rewrite ?Hr; eauto 10.
  - exists (ORead (Threw e)). unfold raised.
    destruct e, (running b) eqn:Hr; simpl;
      unfold client_reply_raise, client_exchange_raise, client_session_raise,
        client_loop; simpl; rewrite ?Hr; eauto 10.
  - exists (ODone (Threw e)). unfold raised.
    destruct e, (running b) eqn:Hr; simpl;
      unfold client_reply_raise, client_exchange_raise, client_session_raise,
        client_loop; simpl; rewrite ?Hr; eauto 10.
Qed.

Lemma sec_step_in_cs_raise b pc e :
  sec_in_cs pc = true ->
  exists o b' pc' evs,
    raised o e /\ sec_step b pc o = Some (b', pc', evs) /\
    sec_in_cs pc' = false /\ bus_lock b' = false.
Proof.
  intros Hcs. destruct pc; try discriminate Hcs.
  - exists (ODone (Threw e)). unfold raised.
    destruct e, (running b) eqn:Hr, (nport2_reader b) eqn:Hn; simpl;
      unfold sec_exchange_raise, sec_loop_raise, sec_loop; simpl;
      rewrite ?Hr, ?Hn; eauto 10.
  - exists (ORead (Threw e)). unfold raised.
    destruct e, (running b) eqn:Hr, (nport2_reader b) eqn:Hn; simpl;
      unfold sec_reply_raise, sec_exchange_raise, sec_loop_raise, sec_loop;
      simpl; rewrite ?Hr, ?Hn; eauto 10.
  - exists (ODone (Threw e)). unfold raised.
    destruct e, (running b) eqn:Hr, (nport2_reader b) eqn:Hn; simpl;
      unfold sec_reply_raise, sec_exchange_raise, sec_loop_raise, sec_loop;
      simpl; rewrite ?Hr, ?Hn; eauto 10.
Qed.

(** A task that waits for the lock gets it as soon as the lock is free. *)
Lemma acquire_enabled s t :
  bus_lock (br s) = false -> acquiring s t = true ->
  exists s' evs, sys_step s (resume t resumed) = Some (s', evs).
Proof.
  intros Hfree Ht. destruct t as [i |].
  - apply task_at_client in Ht as (pc & Hi & Hpc).
    destruct pc; try discriminate Hpc.
    simpl. rewrite Hi. simpl. rewrite Hfree.
    destruct (nport1_writer (br s)); simpl; [eauto |].
    unfold client_exchange_raise, client_loop; simpl.
    destruct (running (br s)); simpl; eauto.
  - simpl in Ht. destruct (secondary s) eqn:Hpc; try discriminate Ht.
    simpl. rewrite Hpc. simpl. rewrite Hfree.
    destruct (nport1_writer (br s)); simpl; [eauto |].
    unfold sec_exchange_raise, sec_loop; simpl.
    destruct (running (br s)), (nport2_reader (br s)); simpl; eauto.
Qed.

(** C2. For a task inside the lock block:
    - every step it takes, whatever the outcome of the awaited operation,
      either stays inside the block with fewer awaits ahead (at most three),
      or leaves the block with the lock released; once it has left, every
      task waiting for the lock can take it;
    - whatever exception the awaited operation raises, caught in the block
      or not, the step leaves the block with the lock released. *)
Theorem lock_released_on_every_exit (s : system) (t : task) :
  holds_lock s t = true ->
  (forall o s' evs, sys_step s (resume t o) = Some (s', evs) ->
     (holds_lock s' t = true /\ cs_rank s' t < cs_rank s t <= 3) \/
     (holds_lock s' t = false /\ bus_lock (br s') = false /\
      forall t', acquiring s' t' = true ->
        exists s'' evs', sys_step s' (resume t' resumed) = Some (s'', evs'))) /\
  (forall e, exists o s' evs,
     raised o e /\ sys_step s (resume t o) = Some (s', evs) /\
     holds_lock s' t = false /\ bus_lock (br s') = false).
Proof.
  intros Ht. split.
  - intros o s' evs Hs. destruct t as [i |].
    + apply task_at_client in Ht as (pc & Hi & Hcs).
      apply sys_step_client_inv in Hs as (pc0 & b' & pc' & Hi0 & Hs & -> & Hi').
      simplify_eq.
      destruct (client_step_in_cs _ _ _ _ _ _ Hcs Hs) as [[H1 H2] | [H1 H2]].
      * left. simpl in *. rewrite Hi', Hi. simpl. split; [done |].
        split; [done |]. destruct pc; simpl; try discriminate Hcs; lia.
      * right. simpl in *. rewrite Hi'. simpl. split; [done |].
        split; [done |]. intros t'. by apply acquire_enabled.
    + simpl in Ht.
      apply sys_step_secondary_inv in Hs as (b' & pc' & Hs & ->).
      destruct (sec_step_in_cs _ _ _ _ _ _ Ht Hs) as [[H1 H2] | [H1 H2]].
      * left. simpl. split; [done |]. split; [done |].
        destruct (secondary s); simpl; try discriminate Ht; lia.
      * right. simpl. split; [done |]. split; [done |].
        intros t'. by apply acquire_enabled.
  - intros e. destruct t as [i |].
    + apply task_at_client in Ht as (pc & Hi & Hcs).
      destruct (client_step_in_cs_raise (br s) pc e Hcs)
        as (o & b' & pc' & evs & Ho & Hs & H1 & H2).
      exists o. eexists _, evs. split; [done |].
      split; [by apply (sys_step_client_intro _ _ _ pc) |].
      simpl. rewrite list_lookup_insert_eq by (by eapply lookup_lt_Some).
      done.
    + simpl in Ht.
      destruct (sec_step_in_cs_raise (br s) (secondary s) e Ht)
        as (o & b' & pc' & evs & Ho & Hs & H1 & H2).
      exists o. eexists _, evs. split; [done |].
      split; [by apply sys_step_secondary_intro |]. done.
Qed.

Lemma lock_released_on_every_exit_witness :
  exists s' s'' evs evs',
    sys_step two_sessions (Client 0 (ODone (Threw CancelledError)))
    = Some (s', evs) /\
    bus_lock (br s') = false /\
    sys_step s' (Client 1 resumed) = Some (s'', evs').
Proof.
  destruct (lock_released_on_every_exit two_sessions (TClient 0) eq_refl)
    as [H _].
  destruct (H (ODone (Threw CancelledError)) _ _ eq_refl)
    as [[Hin _] | (_ & Hfree & Hacq)]; [discriminate Hin |].
  destruct (Hacq (TClient 1) eq_refl) as (s'' & evs' & Hs'').
  eexists _, s'', _, evs'. split; [reflexivity |]. split; [exact Hfree |].
  exact Hs''.
Defined.

(** ** Failures of the exchange with NPort 1 *)

Lemma client_step_exchange_failure b pc o b' pc' evs :
  client_on_primary pc = true -> exchange_failure o = true ->
  client_step b pc o = Some (b', pc', evs) ->
  b' = release (clear_nport1 b) /\
  evs = (if running b then [] else [CloseClient]) /\
  pc' = (if running b then CRead else CClose).
Proof.
  intros Hpc Ho H. destruct pc; try discriminate Hpc;
    destruct o as [r | r | r]; try discriminate H;
    destruct r as [v | e]; try discriminate Ho;
    destruct e; try discriminate Ho; simpl in H;
    unfold client_reply_raise, client_exchange_raise, client_loop,
      client_finally in H; simpl in H;
    destruct (running b); by simplify_eq.
Qed.

Lemma sec_step_exchange_failure b pc o b' pc' evs :
  sec_on_primary pc = true -> exchange_failure o = true ->
  sec_step b pc o = Some (b', pc', evs) ->
  b' = release (clear_nport1 b) /\
  sec_in_cs pc' = false /\
  (running b = true -> sec_at_loop pc' = true) /\
  forall ev, ev ∈ evs -> delivers ev = false.
Proof.
  intros Hpc Ho H. destruct pc; try discriminate Hpc;
    destruct o as [r | r | r]; try discriminate H;
    destruct r as [v | e]; try discriminate Ho;
    destruct e; try discriminate Ho; simpl in H;
    unfold sec_reply_raise, sec_exchange_raise, sec_loop in H; simpl in H;
    destruct (running b), (nport2_reader b); simplify_eq;
    (split; [done |]); (split; [done |]); (split; [done |]);
    intros ev Hev;
    repeat (apply elem_of_cons in Hev as [-> | Hev]; [done |]);
    by apply elem_of_nil in Hev.
Qed.

(** Where the awaited operation of the exchange raises (the drain with any
    [Exception], the read with an [Exception] that is no time-out) the code
    recovers, in the client session as in the NPort 2 loop: the step is
    taken with both NPort 1 handles cleared, writes no reply bytes to the
    client or to NPort 2, releases the lock, leaves the NPort 2 handles and
    the other tasks alone, and, while the bridge is running, leaves the task
    suspended on the first await of its loop. *)
Theorem primary_failure_recovered
    (s : system) (t : task) (o : outcome) (s' : system) (evs : list event) :
  on_primary s t = true ->
  exchange_failure o = true ->
  sys_step s (resume t o) = Some (s', evs) ->
  nport1_reader (br s') = None /\ nport1_writer (br s') = None /\
  (forall ev, ev ∈ evs -> delivers ev = false) /\
  bus_lock (br s') = false /\ holds_lock s' t = false /\
  nport2_reader (br s') = nport2_reader (br s) /\
  nport2_writer (br s') = nport2_writer (br s) /\
  (forall fc fs t', t' <> t -> task_at fc fs s' t' = task_at fc fs s t') /\
  (running (br s) = true -> at_loop s' t = true).
Proof.
  intros Ht Ho Hs.
  pose proof (fun fc fs t' => sys_step_other_task s t o s' evs fc fs t' Hs)
    as Hother.
  destruct t as [i |].
  - apply task_at_client in Ht as (pc & Hi & Hpc).
    apply sys_step_client_inv in Hs as (pc0 & b' & pc' & Hi0 & Hs & -> & Hi').
    simplify_eq.
    destruct (client_step_exchange_failure _ _ _ _ _ _ Hpc Ho Hs)
      as (-> & -> & ->).
    simpl in *. rewrite Hi'. simpl.
    destruct (running (br s)); simpl; repeat split; try done;
      intros ev Hev;
      repeat (apply elem_of_cons in Hev as [-> | Hev]; [done |]);
      by apply elem_of_nil in Hev.
  - simpl in Ht.
    apply sys_step_secondary_inv in Hs as (b' & pc' & Hs & ->).
    destruct (sec_step_exchange_failure _ _ _ _ _ _ Ht Ho Hs)
      as (-> & Hcs & Hloop & Hev).
    simpl. repeat split; done.
Qed.

Lemma primary_failure_recovered_witness :
  exists s',
    sys_step sec_draining (Secondary (ODone (Threw TimeoutError)))
    = Some (s', []) /\
    nport1_writer (br s') = None /\ bus_lock (br s') = false /\
    at_loop s' TSecondary = true.
Proof.
  eexists. split; [reflexivity |].
  destruct (primary_failure_recovered sec_draining TSecondary
              (ODone (Threw TimeoutError)) _ [] eq_refl eq_refl eq_refl)
    as (_ & Hw & _ & Hl & _ & _ & _ & _ & Hloop).
  split; [exact Hw |]. split; [exact Hl |]. exact (Hloop eq_refl).
Defined.

(** A read that times out, or returns the empty string because NPort 1 has
    closed the connection, is not treated as a failure: no reply is written,
    the lock is released, the loop goes on, and the handles stay. *)
Lemma primary_read_no_reply (b : bridge) (r : awaited bytes) :
  r = Threw TimeoutError \/ r = Got [] ->
  client_step b CRecv (ORead r) = Some (client_loop (release b)) /\
  sec_step b SRecv (ORead r) = Some (sec_loop (release b)).
Proof. by intros [-> | ->]. Qed.

(** The handles can be gone when the task gets the lock, cleared by the task
    that held it before: the write raises, as a failed write does. *)
Lemma write_without_handle (b : bridge) (data : bytes) :
  bus_lock b = false -> nport1_writer b = None ->
  client_step b (CAcquire data) resumed
  = Some (client_loop (release (clear_nport1 (set_bus_lock true b)))) /\
  sec_step b (SAcquire data) resumed
  = Some (sec_loop (release (clear_nport1 (set_bus_lock true b)))).
Proof. intros Hl Hw. simpl. by rewrite Hl, Hw. Qed.

(** For every exception raised in the exchange there is a step that takes
    it, so the recovery above is never an empty statement. *)
Lemma exchange_raise_step_exists (s : system) (t : task) (e : exn) :
  on_primary s t = true ->
  exists o s' evs, raised o e /\ sys_step s (resume t o) = Some (s', evs).
Proof.
  intros Ht. apply on_primary_holds_lock in Ht. destruct t as [i |].
  - apply task_at_client in Ht as (pc & Hi & Hcs).
    destruct (client_step_in_cs_raise (br s) pc e Hcs)
      as (o & b' & pc' & evs & Ho & Hs & _).
    exists o. eexists _, evs. split; [done |].
    by apply (sys_step_client_intro _ _ _ pc).
  - simpl in Ht.
    destruct (sec_step_in_cs_raise (br s) (secondary s) e Ht)
      as (o & b' & pc' & evs & Ho & Hs & _).
    exists o. eexists _, evs. split; [done |].
    by apply sys_step_secondary_intro.
Qed.

Lemma client_receiving_reachable : reachable client_receiving.
Proof. by apply (reachable_run (Got 1) (Got 2) booted to_client_recv). Defined.

Lemma sec_receiving_reachable : reachable sec_receiving.
Proof.
  by apply (reachable_run (Got 1) (Got 2) booted
              (to_sec_drain ++ [Secondary resumed])).
Defined.

(** C5, at a failing input. The session of [client_receiving] has written a
    request to NPort 1 and waits for the reply, l.145; NPort 1 has closed
    the connection and the read returns no bytes.  The claim wants the
    NPort 1 handles cleared.  The code has no branch for the empty read
    (l.150 has no [else]): no reply is written, the lock is released and the
    session goes on, as claimed, but both handles stay set to the closed
    connection.  So [ensure_nport1_connected] keeps returning [True] without
    opening a connection, and the next chunk is written to the closed
    connection.  The NPort 2 loop does the same at l.227-232, while for an
    empty read from NPort 2 it does clear the handles, l.193-202. *)
Theorem nport1_end_of_stream_keeps_handles :
  reachable client_receiving /\
  sys_step client_receiving (Client 0 (ORead (Got [])))
  = Some (client_waiting, []) /\
  nport1_reader (br client_waiting) = Some 1 /\
  nport1_writer (br client_waiting) = Some 1 /\
  (forall r, ensure_nport1_connected r (br client_waiting)
             = (Return true, br client_waiting, [])) /\
  run_trace client_waiting [Client 0 (ORead (Got request)); Client 0 resumed]
  = Some (client_draining, [Write1 request]) /\
  reachable sec_receiving /\
  sys_step sec_receiving (Secondary (ORead (Got [])))
  = Some (sec_waiting, []).
Proof.
  split; [exact client_receiving_reachable |].
  repeat split; try reflexivity. exact sec_receiving_reachable.
Qed.

(** ** Where the lock is taken *)

Lemma count_cs_holder (l : list client_pc) :
  1 <= count_cs l -> exists i pc, l !! i = Some pc /\ client_in_cs pc = true.
Proof.
  induction l as [| x l IH]; simpl; [lia |].
  destruct (client_in_cs x) eqn:Hx.
  - intros _. by exists 0, x.
  - intros H. destruct IH as (i & pc & Hi & Hpc); [lia |].
    by exists (S i), pc.
Qed.

Lemma locked_has_holder s :
  lock_inv s -> bus_lock (br s) = true -> exists t, holds_lock s t = true.
Proof.
  unfold lock_inv, holders. intros Hinv Hl. rewrite Hl in Hinv.
  destruct (sec_in_cs (secondary s)) eqn:Hsec.
  - by exists TSecondary.
  - destruct (count_cs_holder (clients s)) as (i & pc & Hi & Hpc); [lia |].
    exists (TClient i). simpl. by rewrite Hi.
Qed.

Lemma client_step_enter b pc o b' pc' evs :
  client_step b pc o = Some (b', pc', evs) ->
  (client_in_cs pc = false -> client_in_cs pc' = true ->
     client_acquiring pc = true /\ bus_lock b = false) /\
  (client_acquiring pc = false -> client_acquiring pc' = true ->
     nport1_connected b' = true /\ bus_lock b' = bus_lock b /\
     (client_connecting pc = true -> exists c, o = OConn (Got c))) /\
  (client_connecting pc = true -> client_in_cs pc' = false).
Proof.
  intros H. step_cases H; simpl; repeat split; try done; eauto.
Qed.

Lemma sec_step_enter b pc o b' pc' evs :
  sec_step b pc o = Some (b', pc', evs) ->
  (sec_in_cs pc = false -> sec_in_cs pc' = true ->
     sec_acquiring pc = true /\ bus_lock b = false) /\
  (sec_acquiring pc = false -> sec_acquiring pc' = true ->
     nport1_connected b' = true /\ bus_lock b' = bus_lock b /\
     (sec_connecting pc = true -> exists c, o = OConn (Got c))) /\
  (sec_connecting pc = true -> sec_in_cs pc' = false).
Proof.
  intros H. step_cases H; simpl; repeat split; try done; eauto.
Qed.

(** C6, as stated, fails: in a reachable state a session holds the lock
    while it is not in the write+read exchange with NPort 1 but waits for
    the reply to drain to its client (l.153-154 are inside the block). *)
Lemma lock_spans_only_exchange_counterexample :
  ~ (forall s t, reachable s -> holds_lock s t = true -> on_primary s t = true).
Proof.
  intros H.
  specialize (H client_replying (TClient 0) client_replying_reachable eq_refl).
  discriminate H.
Qed.

(** C6, amended. In both loops, for every step a task takes in a reachable
    state:
    - the task comes to hold the lock only from its [async with] statement,
      with the lock free;
    - it comes to that statement only with [ensure_nport1_connected] having
      returned [True]: both NPort 1 handles are there, and if it was
      connecting, the attempt succeeded; the lock is not touched;
    - while its connection attempt to NPort 1 is in progress it does not hold
      the lock, before the step or after it; if the lock is taken then,
      another task holds it;
    - when it holds the lock, it is in the write+read exchange with NPort 1
      or forwarding the reply. *)
Theorem lock_taken_after_connect
    (s : system) (t : task) (o : outcome) (s' : system) (evs : list event) :
  reachable s ->
  sys_step s (resume t o) = Some (s', evs) ->
  (holds_lock s t = false -> holds_lock s' t = true ->
     acquiring s t = true /\ bus_lock (br s) = false) /\
  (acquiring s t = false -> acquiring s' t = true ->
     nport1_connected (br s') = true /\
     bus_lock (br s') = bus_lock (br s) /\
     (connecting s t = true -> exists c, o = OConn (Got c))) /\
  (connecting s t = true ->
     holds_lock s t = false /\ holds_lock s' t = false /\
     (bus_lock (br s) = true ->
        exists t', t' <> t /\ holds_lock s t' = true)) /\
  (holds_lock s' t = true -> on_primary s' t = true \/ replying s' t = true).
Proof.
  intros Hr Hs. pose proof (reachable_lock_inv s Hr) as Hinv.
  assert (Hconn : connecting s t = true -> holds_lock s t = false).
  { destruct t as [i |]; simpl.
    - destruct (clients s !! i) as [[] |]; done.
    - by destruct (secondary s). }
  assert (Hother : connecting s t = true -> bus_lock (br s) = true ->
                   exists t', t' <> t /\ holds_lock s t' = true).
  { intros Hc Hl. destruct (locked_has_holder s Hinv Hl) as [t' Ht'].
    exists t'. split; [| done]. intros ->. rewrite Hconn in Ht'; done. }
  destruct t as [i |].
  - apply sys_step_client_inv in Hs as (pc & b' & pc' & Hi & Hs & -> & Hi').
    destruct (client_step_enter _ _ _ _ _ _ Hs) as (H1 & H2 & H3).
    simpl in *. rewrite Hi' in *. rewrite Hi in *. simpl in *.
    repeat split; try tauto.
    + intros Hc. by destruct pc'; auto.
  - apply sys_step_secondary_inv in Hs as (b' & pc' & Hs & ->).
    destruct (sec_step_enter _ _ _ _ _ _ Hs) as (H1 & H2 & H3).
    simpl in *.
    repeat split; try tauto.
    + intros Hc. by destruct pc'; auto.
Qed.

(** One session can hold the lock while another one is connecting: after a
    failed exchange both sessions find the handles gone and connect; the
    first attempt to succeed lets its session go on to the lock while the
    other attempt is still in progress. *)
Example lock_held_while_another_connects :
  run_actions booted
    (to_client_reconnect ++
     [Accept; Client 1 resumed; Client 1 (ORead (Got request));
      Client 0 (OConn (Got 3)); Client 0 resumed])
  = Some {| br := Bridge (Some 3) (Some 3) (Some 2) (Some 2) true true;
            clients := [CDrain; CConnect request]; secondary := SStart |}.
Proof. reflexivity. Qed.

Lemma client_reconnecting_reachable : reachable client_reconnecting.
Proof.
  by apply (reachable_run (Got 1) (Got 2) booted to_client_reconnect).
Defined.

Lemma lock_taken_after_connect_witness :
  exists s',
    sys_step client_reconnecting (Client 0 (OConn (Got 3))) = Some (s', []) /\
    acquiring s' (TClient 0) = true /\
    nport1_connected (br s') = true /\
    holds_lock s' (TClient 0) = false.
Proof.
  eexists. split; [reflexivity |].
  destruct (lock_taken_after_connect client_reconnecting (TClient 0)
              (OConn (Got 3)) _ [] client_reconnecting_reachable eq_refl)
    as (_ & H2 & H3 & _).
  destruct (H2 eq_refl eq_refl) as (Hc & _).
  destruct (H3 eq_refl) as (_ & Hh & _).
  split; [reflexivity |]. split; [exact Hc | exact Hh].
Defined.

(** ** Failures of the client socket *)

(** A failure or a time-out of the read from the client (l.118) ends the
    session and nothing else: the bridge object and the other tasks are as
    before, and the session closes its socket. *)
Lemma client_read_failure_confined s i e s' evs :
  clients s !! i = Some CRead ->
  sys_step s (Client i (ORead (Threw e))) = Some (s', evs) ->
  br s' = br s /\ secondary s' = secondary s /\
  clients s' = <[i := CClose]> (clients s) /\ evs = [CloseClient] /\
  forall j, j <> i -> clients s' !! j = clients s !! j.
Proof.
  intros Hi Hs.
  apply sys_step_client_inv in Hs as (pc & b' & pc' & Hi0 & Hs & -> & _).
  simplify_eq. simpl in Hs. unfold client_session_raise, client_finally in Hs.
  simplify_eq. simpl. repeat split; try done.
  intros j Hj. by apply list_lookup_insert_ne.
Qed.

(** C3, at a failing input. The session of [client_replying] has received
    the reply of NPort 1 and waits for [client_writer.drain()], l.154; the
    client has gone and the drain raises ConnectionResetError.  The claim
    wants the session ended and the NPort 1 handles untouched.  The handler
    that catches the exception is the one of l.158, written for NPort 1
    errors: the session stays open, back at its read, and both NPort 1
    handles, shared with every other task, are cleared. *)
Theorem client_reply_failure_clears_nport1 :
  reachable client_replying /\
  sys_step client_replying (Client 0 (ODone (Threw OtherException)))
  = Some ({| br := Bridge None None (Some 2) (Some 2) false true;
             clients := [CRead]; secondary := SStart |}, []) /\
  nport1_connected (br client_replying) = true.
Proof.
  split; [exact client_replying_reachable |]. split; reflexivity.
Qed.

(** ** Failures of NPort 2 *)

(** A failed connection attempt to NPort 2 leaves the handles absent and the
    loop sleeps five seconds. *)
Lemma sec_connect_failure (b : bridge) (e : exn) :
  is_Exception e = true ->
  sec_step b SConnect2 (OConn (Threw e)) = Some (b, SSleep 5, []).
Proof. intros He. simpl. by rewrite He. Qed.

(** A failed read from NPort 2 closes the writer if there is one, clears
    both handles and sleeps one second. *)
Lemma sec_read_failure (b : bridge) (e : exn) (r : awaited unit) :
  is_Exception e = true -> is_TimeoutError e = false ->
  sec_step b SRead2 (ORead (Threw e)) = Some (sec_drop_nport2 b) /\
  (r = Got () \/ (exists e', r = Threw e' /\ is_Exception e' = true) ->
   sec_step b SClose2 (ODone r) = Some (clear_nport2 b, SSleep 1, [])).
Proof.
  intros He Ht. split.
  - simpl. unfold sec_loop_raise. by rewrite Ht, He.
  - intros [-> | (e' & -> & He')]; simpl; [done | by rewrite He'].
Qed.

(** Only a cancellation ends the loop while the bridge is running. *)
Lemma sec_step_never_fatal b pc o b' evs :
  running b = true ->
  sec_step b pc o = Some (b', SDone, evs) ->
  raised o CancelledError.
Proof.
  intros Hr H. unfold raised.
  step_cases H; simpl in *; try congruence; auto;
    match goal with e : exn |- _ => destruct e; try discriminate; auto end.
Qed.

(** C4, at a failing input. The loop of [sec_replying] has received the
    reply of NPort 1 and waits for [self.nport2_writer.drain()], l.237; the
    write to NPort 2 fails with an OSError.  The claim wants the NPort 2
    handles cleared and the loop paused.  The handler that catches the
    exception is the one of l.241, written for NPort 1 errors: the NPort 2
    handles stay, the NPort 1 handles are cleared, and the loop goes straight
    back to reading from NPort 2, without a sleep. *)
Theorem sec_reply_failure_keeps_nport2 :
  reachable sec_replying /\
  sys_step sec_replying (Secondary (ODone (Threw OtherException)))
  = Some ({| br := Bridge None None (Some 2) (Some 2) false true;
             clients := []; secondary := SRead2 |}, []).
Proof.
  split; [exact sec_replying_reachable | reflexivity].
Qed.


(** * Further properties of the code *)

(** ** [load_config] *)

Lemma numeric_defaults_parse :
  py_int "4001" = Some 4001%Z /\ py_int "4002" = Some 4002%Z /\
  py_int "5020" = Some 5020%Z /\ py_int "3" = Some 3%Z.
Proof. repeat split; reflexivity. Qed.

Lemma getenv_cases (env : gmap string string) (key dflt : string) :
  (env !! key = None /\ getenv env key dflt = dflt) \/
  (exists v, env !! key = Some v /\ getenv env key dflt = v).
Proof.
  unfold getenv. destruct (env !! key) as [v |]; [right; eauto | by left].
Qed.

(** X1. [load_config] ends in [sys.exit] only with status 1, and exactly
    when one of the four settings read with [int] is set to a value [int]
    refuses: the host settings are taken as they are, whatever they hold,
    and an unset numeric setting never makes it exit. *)
Theorem load_config_exit_iff (env : gmap string string) (status : Z) :
  load_config env = SysExit status <->
  status = 1%Z /\
  exists key v, key ∈ numeric_settings /\ env !! key = Some v /\ py_int v = None.
Proof.
  split.
  - unfold load_config, numeric_settings.
    destruct numeric_defaults_parse as (D1 & D2 & D3 & D4).
    destruct (getenv_cases env "NPORT1_PORT" "4001") as [[_ ->] | (v1 & H1 & ->)];
      [rewrite D1 | destruct (py_int v1) eqn:P1];
    try (intros ?; simplify_eq; split; [done |];
         exists "NPORT1_PORT", v1; repeat split; try done;
         apply list_elem_of_here).
    all: destruct (getenv_cases env "NPORT2_PORT" "4002")
           as [[_ ->] | (v2 & H2 & ->)];
      [rewrite D2 | destruct (py_int v2) eqn:P2];
    try (intros ?; simplify_eq; split; [done |];
         exists "NPORT2_PORT", v2; repeat split; try done;
         apply list_elem_of_further, list_elem_of_here).
    all: destruct (getenv_cases env "LISTEN_PORT" "5020")
           as [[_ ->] | (v3 & H3 & ->)];
      [rewrite D3 | destruct (py_int v3) eqn:P3];
    try (intros ?; simplify_eq; split; [done |];
         exists "LISTEN_PORT", v3; repeat split; try done;
         do 2 apply list_elem_of_further; apply list_elem_of_here).
    all: destruct (getenv_cases env "MODBUS_TIMEOUT" "3")
           as [[_ ->] | (v4 & H4 & ->)];
      [rewrite D4 | destruct (py_int v4) eqn:P4];
    try (intros ?; simplify_eq; split; [done |];
         exists "MODBUS_TIMEOUT", v4; repeat split; try done;
         do 3 apply list_elem_of_further; apply list_elem_of_here).
    all: discriminate.
  - intros (-> & key & v & Hkey & Hv & Hbad).
    unfold numeric_settings in Hkey.
    repeat (apply elem_of_cons in Hkey as [-> | Hkey]);
      [ | | | | by apply elem_of_nil in Hkey ];
      unfold load_config;
      rewrite (getenv_set _ _ _ _ Hv), Hbad;
      repeat case_match; reflexivity.
Qed.

Lemma load_config_exit_iff_witness :
  exists key v,
    key ∈ numeric_settings /\
    (<["NPORT1_HOST" := ""]> (<["MODBUS_TIMEOUT" := "3s"]> ∅)
       : gmap string string) !! key = Some v /\
    py_int v = None.
Proof.
  apply (proj1 (load_config_exit_iff
                  (<["NPORT1_HOST" := ""]> (<["MODBUS_TIMEOUT" := "3s"]> ∅)) 1)).
  reflexivity.
Defined.

(** ** Start-up: [main] and [run] *)

(** X3. With a configuration that loads: if the first connection attempt to
    NPort 1 fails, the bridge does not start, NPort 2 is not contacted and
    no task is created; if it succeeds, the bridge serves whatever the
    attempt to NPort 2 gives, with the lock free and no session yet; and
    when the attempt to NPort 2 has failed, the NPort 2 loop opens a new
    connection the first time it runs. *)
Theorem startup_needs_nport1_only
    (env : gmap string string) (cfg : config) (r2 : awaited conn) :
  load_config env = Loaded cfg ->
  (forall e, is_Exception e = true ->
     main env (Threw e) r2 = (Stops, [Open1])) /\
  (forall c1 c2, r2 = Got c2 ->
     main env (Got c1) r2
     = (Serves cfg {| br := Bridge (Some c1) (Some c1) (Some c2) (Some c2)
                                   false true;
                      clients := []; secondary := SStart |},
        [Open1; Open2])) /\
  (forall c1 e, r2 = Threw e -> is_Exception e = true ->
     let s0 := {| br := Bridge (Some c1) (Some c1) None None false true;
                  clients := []; secondary := SStart |} in
     main env (Got c1) r2 = (Serves cfg s0, [Open1; Open2]) /\
     sys_step s0 (Secondary resumed)
     = Some ({| br := br s0; clients := []; secondary := SConnect2 |}, [Open2])).
Proof.
  intros Hcfg. unfold main. rewrite Hcfg. split; [| split].
  - intros e He. unfold boot. simpl. by rewrite He.
  - by intros c1 c2 ->.
  - intros c1 e -> He. unfold boot. simpl. by rewrite He.
Qed.

Lemma startup_needs_nport1_only_witness :
  main ∅ (Threw TimeoutError) (Got 2) = (Stops, [Open1]) /\
  exists s0, main ∅ (Got 1) (Threw OtherException)
             = (Serves default_config s0, [Open1; Open2]).
Proof.
  assert (Hcfg : load_config ∅ = Loaded default_config) by reflexivity.
  destruct (startup_needs_nport1_only ∅ default_config (Got 2) Hcfg)
    as (H1 & _ & _).
  split; [exact (H1 TimeoutError eq_refl) |].
  destruct (startup_needs_nport1_only ∅ default_config
              (Threw OtherException) Hcfg) as (_ & _ & H3).
  destruct (H3 1 OtherException eq_refl eq_refl) as [H _].
  eexists. exact H.
Defined.

(** ** Whole iterations of the forwarding loops *)

Lemma run_trace_client s i o acts pc b' pc' evs :
  clients s !! i = Some pc ->
  client_step (br s) pc o = Some (b', pc', evs) ->
  run_trace s (Client i o :: acts)
  = match run_trace {| br := b'; clients := <[i := pc']> (clients s);
                       secondary := secondary s |} acts with
    | Some (s'', evs') => Some (s'', evs ++ evs')
    | None => None
    end.
Proof. intros Hi Hs. simpl. by rewrite Hi, Hs. Qed.

Lemma run_trace_secondary s o acts b' pc' evs :
  sec_step (br s) (secondary s) o = Some (b', pc', evs) ->
  run_trace s (Secondary o :: acts)
  = match run_trace {| br := b'; clients := clients s; secondary := pc' |}
            acts with
    | Some (s'', evs') => Some (s'', evs ++ evs')
    | None => None
    end.
Proof. intros Hs. simpl. by rewrite Hs. Qed.

(** Taking the free lock and giving it back leaves the bridge as it was. *)
Lemma release_acquire (b : bridge) :
  bus_lock b = false -> release (set_bus_lock true b) = b.
Proof. destruct b. simpl. by intros ->. Qed.

(** X4. A session waiting for its client, on a running bridge that has both
    NPort 1 handles and a free lock, receives a non-empty chunk [d]; the
    write drains and NPort 1 answers a non-empty [r]; the reply drains.
    Over these five resumptions the session writes exactly [d] to NPort 1
    and then exactly [r] to its client, and the whole system is back in the
    state it started from: lock free, handles kept, session waiting for the
    next chunk. *)
Theorem client_request_served (s : system) (i : nat) (d r : bytes) :
  clients s !! i = Some CRead ->
  running (br s) = true ->
  nport1_connected (br s) = true ->
  bus_lock (br s) = false ->
  d <> [] -> r <> [] ->
  run_trace s [Client i (ORead (Got d)); Client i resumed; Client i resumed;
               Client i (ORead (Got r)); Client i resumed]
  = Some (s, [Write1 d; WriteClient r]).
Proof.
  intros Hi Hrun Hconn Hfree Hd Hr.
  assert (Hlt : i < length (clients s)) by (by eapply lookup_lt_Some).
  destruct d as [| d0 d]; [done |]. destruct r as [| r0 r]; [done |].
  unfold nport1_connected in Hconn. apply andb_prop in Hconn as [Hw Hrd].
  destruct (nport1_writer (br s)) as [w |] eqn:Ew; [| done].
  destruct (nport1_reader (br s)) as [rd |] eqn:Er; [| done].
  erewrite run_trace_client; [| exact Hi |];
    [| simpl; unfold nport1_connected; rewrite Ew, Er; reflexivity ].
  erewrite run_trace_client;
    [| simpl; by apply list_lookup_insert_eq |];
    [| simpl; rewrite Hfree, Ew; reflexivity ].
  erewrite run_trace_client;
    [| simpl; apply list_lookup_insert_eq; by rewrite length_insert |];
    [| simpl; rewrite Er; reflexivity ].
  erewrite run_trace_client;
    [| simpl; apply list_lookup_insert_eq; by rewrite !length_insert |];
    [| simpl; reflexivity ].
  erewrite run_trace_client;
    [| simpl; apply list_lookup_insert_eq; by rewrite !length_insert |];
    [| simpl; unfold client_loop; simpl; rewrite Hrun; reflexivity ].
  simpl. rewrite !list_insert_insert_eq, (list_insert_id _ _ _ Hi).
  rewrite release_acquire by done. by destruct s.
Qed.

Lemma client_request_served_witness :
  run_trace {| br := Bridge (Some 1) (Some 1) None None false true;
               clients := [CDone; CRead]; secondary := SSleep 5 |}
    [Client 1 (ORead (Got request)); Client 1 resumed; Client 1 resumed;
     Client 1 (ORead (Got response)); Client 1 resumed]
  = Some ({| br := Bridge (Some 1) (Some 1) None None false true;
             clients := [CDone; CRead]; secondary := SSleep 5 |},
          [Write1 request; WriteClient response]).
Proof.
  apply (client_request_served
           {| br := Bridge (Some 1) (Some 1) None None false true;
              clients := [CDone; CRead]; secondary := SSleep 5 |}
           1 request response); done.
Defined.

(** X5. The same for a chunk that arrives from NPort 2, with both NPort 2
    handles there: the loop writes exactly [d] to NPort 1 and then exactly
    [r] to NPort 2, and the whole system is back in the state it started
    from, the loop reading from NPort 2 again. *)
Theorem nport2_request_served (s : system) (d r : bytes) :
  secondary s = SRead2 ->
  running (br s) = true ->
  nport1_connected (br s) = true ->
  present (nport2_reader (br s)) = true ->
  present (nport2_writer (br s)) = true ->
  bus_lock (br s) = false ->
  d <> [] -> r <> [] ->
  run_trace s [Secondary (ORead (Got d)); Secondary resumed; Secondary resumed;
               Secondary (ORead (Got r)); Secondary resumed]
  = Some (s, [Write1 d; Write2 r]).
Proof.
  intros Hpc Hrun Hconn Hr2 Hw2 Hfree Hd Hr.
  destruct d as [| d0 d]; [done |]. destruct r as [| r0 r]; [done |].
  unfold nport1_connected in Hconn. apply andb_prop in Hconn as [Hw Hrd].
  destruct (nport1_writer (br s)) as [w |] eqn:Ew; [| done].
  destruct (nport1_reader (br s)) as [rd |] eqn:Er; [| done].
  destruct (nport2_writer (br s)) as [w2 |] eqn:Ew2; [| done].
  destruct (nport2_reader (br s)) as [rd2 |] eqn:Er2; [| done].
  erewrite run_trace_secondary;
    [| rewrite Hpc; simpl; unfold nport1_connected; rewrite Ew, Er;
       reflexivity ].
  erewrite run_trace_secondary; [| simpl; rewrite Hfree, Ew; reflexivity ].
  erewrite run_trace_secondary; [| simpl; rewrite Er; reflexivity ].
  erewrite run_trace_secondary; [| simpl; rewrite Ew2; reflexivity ].
  erewrite run_trace_secondary;
    [| simpl; unfold sec_loop; simpl; rewrite Hrun, Er2; reflexivity ].
  simpl. rewrite release_acquire by done. destruct s; simpl in *. by subst.
Qed.

Lemma nport2_request_served_witness :
  run_trace {| br := Bridge (Some 1) (Some 1) (Some 2) (Some 2) false true;
               clients := [CRead]; secondary := SRead2 |}
    [Secondary (ORead (Got request)); Secondary resumed; Secondary resumed;
     Secondary (ORead (Got response)); Secondary resumed]
  = Some ({| br := Bridge (Some 1) (Some 1) (Some 2) (Some 2) false true;
             clients := [CRead]; secondary := SRead2 |},
          [Write1 request; Write2 response]).
Proof.
  apply (nport2_request_served
           {| br := Bridge (Some 1) (Some 1) (Some 2) (Some 2) false true;
              clients := [CRead]; secondary := SRead2 |}
           request response); done.
Defined.

(** X6. A session receives a non-empty chunk while an NPort 1 handle is
    missing, and the connection attempt fails: the chunk is dropped.  The
    only network call is the one attempt to connect; nothing is written to
    NPort 1 or to the client, the lock is not touched, and the system is
    back in the state it started from, the session open and waiting for the
    next chunk. *)
Theorem client_chunk_dropped_when_unreachable
    (s : system) (i : nat) (d : bytes) (e : exn) :
  clients s !! i = Some CRead ->
  running (br s) = true ->
  nport1_connected (br s) = false ->
  d <> [] ->
  is_Exception e = true ->
  run_trace s [Client i (ORead (Got d)); Client i (OConn (Threw e))]
  = Some (s, [Open1]).
Proof.
  intros Hi Hrun Hconn Hd He.
  assert (Hlt : i < length (clients s)) by (by eapply lookup_lt_Some).
  destruct d as [| d0 d]; [done |].
  erewrite run_trace_client; [| exact Hi |];
    [| simpl; rewrite Hconn; reflexivity ].
  erewrite run_trace_client;
    [| simpl; by apply list_lookup_insert_eq |];
    [| simpl; rewrite He; unfold client_loop; rewrite Hrun; reflexivity ].
  simpl. rewrite !list_insert_insert_eq, (list_insert_id _ _ _ Hi).
  by destruct s.
Qed.

Lemma client_chunk_dropped_when_unreachable_witness :
  run_trace {| br := Bridge None None (Some 2) (Some 2) true true;
               clients := [CRead; CDrain]; secondary := SRead2 |}
    [Client 0 (ORead (Got request)); Client 0 (OConn (Threw TimeoutError))]
  = Some ({| br := Bridge None None (Some 2) (Some 2) true true;
             clients := [CRead; CDrain]; secondary := SRead2 |}, [Open1]).
Proof.
  apply (client_chunk_dropped_when_unreachable
           {| br := Bridge None None (Some 2) (Some 2) true true;
              clients := [CRead; CDrain]; secondary := SRead2 |}
           0 request TimeoutError); done.
Defined.

(** X7. The same in the NPort 2 loop, which sleeps one second before it
    reads from NPort 2 again: the chunk is dropped, the only network call is
    the attempt to connect to NPort 1, and the NPort 2 connection is kept. *)
Theorem nport2_chunk_dropped_when_unreachable
    (s : system) (d : bytes) (e : exn) :
  secondary s = SRead2 ->
  running (br s) = true ->
  nport1_connected (br s) = false ->
  present (nport2_reader (br s)) = true ->
  d <> [] ->
  is_Exception e = true ->
  run_trace s [Secondary (ORead (Got d)); Secondary (OConn (Threw e));
               Secondary resumed]
  = Some (s, [Open1]).
Proof.
  intros Hpc Hrun Hconn Hr2 Hd He.
  destruct d as [| d0 d]; [done |].
  destruct (nport2_reader (br s)) as [rd2 |] eqn:Er2; [| done].
  erewrite run_trace_secondary;
    [| rewrite Hpc; simpl; rewrite Hconn; reflexivity ].
  erewrite run_trace_secondary; [| simpl; rewrite He; reflexivity ].
  erewrite run_trace_secondary;
    [| simpl; unfold sec_loop; rewrite Hrun, Er2; reflexivity ].
  simpl. destruct s; simpl in *. by subst.
Qed.

Lemma nport2_chunk_dropped_when_unreachable_witness :
  run_trace {| br := Bridge None None (Some 2) (Some 2) false true;
               clients := []; secondary := SRead2 |}
    [Secondary (ORead (Got request)); Secondary (OConn (Threw OtherException));
     Secondary resumed]
  = Some ({| br := Bridge None None (Some 2) (Some 2) false true;
             clients := []; secondary := SRead2 |}, [Open1]).
Proof.
  apply (nport2_chunk_dropped_when_unreachable
           {| br := Bridge None None (Some 2) (Some 2) false true;
              clients := []; secondary := SRead2 |}
           request OtherException); done.
Defined.

(** X8. The NPort 2 loop, reading on a running bridge that has an NPort 2
    writer, gets an empty read (NPort 2 closed the connection) or an
    exception that is no time-out.  It closes the writer, and whether
    [wait_closed] returns or raises, clears both NPort 2 handles, sleeps,
    and opens a new connection; when that succeeds both handles are the new
    connection and the loop reads again.  The NPort 1 handles, the lock and
    the sessions are not touched. *)
Theorem nport2_reconnects_after_loss
    (s : system) (r : awaited bytes) (rc : awaited unit) (c : conn) :
  secondary s = SRead2 ->
  running (br s) = true ->
  present (nport2_writer (br s)) = true ->
  nport2_lost r ->
  close_settled rc ->
  run_trace s [Secondary (ORead r); Secondary (ODone rc); Secondary resumed;
               Secondary (OConn (Got c))]
  = Some ({| br := set_nport2 (Some c) (Some c) (br s);
             clients := clients s; secondary := SRead2 |},
          [Close2; Open2]).
Proof.
  intros Hpc Hrun Hw2 Hr Hrc.
  destruct (nport2_writer (br s)) as [w2 |] eqn:Ew2; [| done].
  erewrite run_trace_secondary with (b' := br s) (pc' := SClose2)
                                     (evs := [Close2]).
  2:{ rewrite Hpc.
      destruct Hr as [-> | (e & -> & He & Ht)]; simpl;
        unfold sec_loop_raise, sec_drop_nport2; rewrite ?Ht, ?He, Ew2; done. }
  erewrite run_trace_secondary with (b' := clear_nport2 (br s))
                                     (pc' := SSleep 1) (evs := []).
  2:{ destruct Hrc as [-> | (e & -> & He)]; simpl; rewrite ?He; done. }
  erewrite run_trace_secondary;
    [| simpl; unfold sec_loop; simpl; rewrite Hrun; reflexivity ].
  erewrite run_trace_secondary; [| simpl; reflexivity ].
  reflexivity.
Qed.

Lemma nport2_reconnects_after_loss_witness :
  run_trace {| br := Bridge (Some 1) (Some 1) (Some 2) (Some 2) true true;
               clients := [CRecv]; secondary := SRead2 |}
    [Secondary (ORead (Got [])); Secondary (ODone (Threw OtherException));
     Secondary resumed; Secondary (OConn (Got 5))]
  = Some ({| br := Bridge (Some 1) (Some 1) (Some 5) (Some 5) true true;
             clients := [CRecv]; secondary := SRead2 |}, [Close2; Open2]).
Proof.
  apply (nport2_reconnects_after_loss
           {| br := Bridge (Some 1) (Some 1) (Some 2) (Some 2) true true;
              clients := [CRecv]; secondary := SRead2 |}
           (Got []) (Threw OtherException) 5); try done.
  - by left.
  - right. by exists OtherException.
Defined.

(** X9. The read from the client returns no bytes (the client has closed)
    or raises, a time-out included: the session closes its socket once and
    ends, whatever [wait_closed] gives.  The bridge object, the lock and all
    other tasks are as before; nothing is written to NPort 1. *)
Theorem client_session_ends_on_lost_client
    (s : system) (i : nat) (r : awaited bytes) (rc : awaited unit) :
  clients s !! i = Some CRead ->
  read_ended r ->
  run_trace s [Client i (ORead r); Client i (ODone rc)]
  = Some ({| br := br s; clients := <[i := CDone]> (clients s);
             secondary := secondary s |}, [CloseClient]).
Proof.
  intros Hi Hr.
  assert (Hlt : i < length (clients s)) by (by eapply lookup_lt_Some).
  erewrite run_trace_client with (b' := br s) (pc' := CClose)
                                  (evs := [CloseClient]); [| exact Hi |].
  2:{ by destruct Hr as [-> | (e & ->)]. }
  erewrite run_trace_client;
    [| simpl; by apply list_lookup_insert_eq |];
    [| simpl; reflexivity ].
  simpl. by rewrite list_insert_insert_eq.
Qed.

Lemma client_session_ends_on_lost_client_witness :
  run_trace {| br := Bridge (Some 1) (Some 1) None None true true;
               clients := [CRecv; CRead]; secondary := SSleep 5 |}
    [Client 1 (ORead (Threw TimeoutError)); Client 1 resumed]
  = Some ({| br := Bridge (Some 1) (Some 1) None None true true;
             clients := [CRecv; CDone]; secondary := SSleep 5 |},
          [CloseClient]).
Proof.
  apply (client_session_ends_on_lost_client
           {| br := Bridge (Some 1) (Some 1) None None true true;
              clients := [CRecv; CRead]; secondary := SSleep 5 |}
           1 (Threw TimeoutError) (Got ())); [done |].
  right. by exists TimeoutError.
Defined.

(** ** The lock, seen from the whole system *)

(** X10. In every state the running bridge can reach, the lock is taken
    exactly when some task is inside the lock block: no task that has ended,
    has been cancelled or has gone on to its next chunk leaves the lock
    taken behind it. *)
Theorem lock_never_orphaned (s : system) :
  reachable s ->
  (bus_lock (br s) = true <-> exists t, holds_lock s t = true).
Proof.
  intros Hr. pose proof (reachable_lock_inv s Hr) as Hinv. split.
  - by apply locked_has_holder.
  - intros [t Ht]. by apply (holds_lock_locked s t).
Qed.

Lemma lock_never_orphaned_witness :
  exists t, holds_lock sec_replying t = true.
Proof.
  apply (proj1 (lock_never_orphaned sec_replying sec_replying_reachable)).
  reflexivity.
Defined.

Lemma client_step_release b pc o b' pc' evs :
  client_step b pc o = Some (b', pc', evs) ->
  bus_lock b = true -> bus_lock b' = false ->
  client_in_cs pc = true /\ client_in_cs pc' = false.
Proof.
  intros H Hl Hl'. step_cases H; simpl in *; first [done | congruence].
Qed.

Lemma sec_step_release b pc o b' pc' evs :
  sec_step b pc o = Some (b', pc', evs) ->
  bus_lock b = true -> bus_lock b' = false ->
  sec_in_cs pc = true /\ sec_in_cs pc' = false.
Proof.
  intros H Hl Hl'. step_cases H; simpl in *; first [done | congruence].
Qed.

(** X11. Whatever the state, a step that finds the lock taken and leaves it
    free is a step of a task that was inside the lock block and has left it:
    no session, nor the NPort 2 loop, nor [cleanup], nor the arrival of a
    new client releases a lock that another task holds. *)
Theorem only_the_holder_releases
    (s : system) (a : action) (s' : system) (evs : list event) :
  sys_step s a = Some (s', evs) ->
  bus_lock (br s) = true ->
  bus_lock (br s') = false ->
  exists t o, a = resume t o /\ holds_lock s t = true /\ holds_lock s' t = false.
Proof.
  intros Hs Hl Hl'. destruct a as [| i o | o |].
  - simpl in Hs. simplify_eq. simpl in Hl'. congruence.
  - apply sys_step_client_inv in Hs as (pc & b' & pc' & Hi & Hs & -> & Hi').
    destruct (client_step_release _ _ _ _ _ _ Hs Hl Hl') as [H1 H2].
    exists (TClient i), o. simpl in *. rewrite Hi, Hi'. done.
  - apply sys_step_secondary_inv in Hs as (b' & pc' & Hs & ->).
    destruct (sec_step_release _ _ _ _ _ _ Hs Hl Hl') as [H1 H2].
    by exists TSecondary, o.
  - simpl in Hs. simplify_eq. simpl in Hl'. congruence.
Qed.

Lemma only_the_holder_releases_witness :
  exists t o,
    Client 0 (ODone (Threw CancelledError)) = resume t o /\
    holds_lock two_sessions t = true.
Proof.
  destruct (only_the_holder_releases two_sessions
              (Client 0 (ODone (Threw CancelledError))) _ _
              eq_refl eq_refl eq_refl) as (t & o & Ha & Ht & _).
  by exists t, o.
Defined.

(** ** What is written, and when connections are opened *)

Lemma client_step_delivers b pc o b' pc' evs ev :
  client_step b pc o = Some (b', pc', evs) -> ev ∈ evs -> delivers ev = true ->
  exists r, ev = WriteClient r /\ pc = CRecv /\ o = ORead (Got r) /\
            r <> [] /\ evs = [ev] /\ b' = b /\ pc' = CReply.
Proof.
  intros H Hin Hd. step_cases H;
    repeat (apply elem_of_cons in Hin as [-> | Hin]; [try discriminate Hd |]);
    try (by apply elem_of_nil in Hin).
  all: eexists; repeat split; done.
Qed.

Lemma sec_step_delivers b pc o b' pc' evs ev :
  sec_step b pc o = Some (b', pc', evs) -> ev ∈ evs -> delivers ev = true ->
  exists r, ev = Write2 r /\ pc = SRecv /\ o = ORead (Got r) /\
            r <> [] /\ evs = [ev] /\ b' = b /\ pc' = SReply /\
            present (nport2_writer b) = true.
Proof.
  intros H Hin Hd. step_cases H;
    repeat (apply elem_of_cons in Hin as [-> | Hin]; [try discriminate Hd |]);
    try (by apply elem_of_nil in Hin).
  all: eexists; repeat split; try done.
  all: match goal with E : nport2_writer _ = Some _ |- _ => by rewrite E end.
Qed.

(** X12. Reply bytes are written only in one situation: a task that waits
    for the reply of NPort 1 gets a non-empty read.  The bytes written are
    the bytes read, they go to the client of that session (or to NPort 2,
    for the NPort 2 loop, and only if its writer is there), and the step
    changes nothing in the bridge object: an empty read, a time-out or a
    failure never produces a reply, and no task writes a reply for another
    task's request. *)
Theorem reply_only_from_nport1
    (s : system) (a : action) (s' : system) (evs : list event) (ev : event) :
  sys_step s a = Some (s', evs) ->
  ev ∈ evs -> delivers ev = true ->
  exists r, r <> [] /\ evs = [ev] /\ br s' = br s /\
    ((exists i, a = Client i (ORead (Got r)) /\ ev = WriteClient r /\
                clients s !! i = Some CRecv) \/
     (a = Secondary (ORead (Got r)) /\ ev = Write2 r /\
      secondary s = SRecv /\ present (nport2_writer (br s)) = true)).
Proof.
  intros Hs Hin Hd. destruct a as [| i o | o |].
  - simpl in Hs. simplify_eq. by apply elem_of_nil in Hin.
  - apply sys_step_client_inv in Hs as (pc & b' & pc' & Hi & Hs & -> & Hi').
    destruct (client_step_delivers _ _ _ _ _ _ _ Hs Hin Hd)
      as (r & -> & -> & -> & Hr & -> & -> & ->).
    exists r. repeat split; try done. left. by exists i.
  - apply sys_step_secondary_inv in Hs as (b' & pc' & Hs & ->).
    destruct (sec_step_delivers _ _ _ _ _ _ _ Hs Hin Hd)
      as (r & -> & Hpc & -> & Hr & -> & -> & -> & Hw).
    exists r. repeat split; try done. by right.
  - simpl in Hs. simplify_eq. exfalso.
    destruct (present (nport1_writer (br s))),
             (present (nport2_writer (br s))); simpl in Hin;
      repeat (apply elem_of_cons in Hin as [-> | Hin]; [discriminate Hd |]);
      by apply elem_of_nil in Hin.
Qed.

Lemma reply_only_from_nport1_witness :
  exists r, r <> [] /\
    sys_step {| br := Bridge (Some 1) (Some 1) (Some 2) (Some 2) true true;
                clients := []; secondary := SRecv |}
      (Secondary (ORead (Got response)))
    = Some ({| br := Bridge (Some 1) (Some 1) (Some 2) (Some 2) true true;
               clients := []; secondary := SReply |}, [Write2 r]).
Proof.
  destruct (reply_only_from_nport1
              {| br := Bridge (Some 1) (Some 1) (Some 2) (Some 2) true true;
                 clients := []; secondary := SRecv |}
              (Secondary (ORead (Got response))) _ _ (Write2 response)
              eq_refl (list_elem_of_here _ _) eq_refl)
    as (r & Hr & _ & _ & [(i & Ha & _) | (Ha & _)]); [discriminate Ha |].
  exists r. split; [exact Hr |]. by simplify_eq.
Defined.

Lemma client_step_open b pc o b' pc' evs :
  client_step b pc o = Some (b', pc', evs) ->
  (Open2 ∉ evs) /\
  (Open1 ∈ evs ->
     nport1_connected b = false /\ b' = b /\ client_connecting pc' = true /\
     pc = CRead).
Proof.
  intros H. step_cases H; (split; [intros Hin | intros Hin]);
    repeat (apply elem_of_cons in Hin as [Hin | Hin]; [try discriminate Hin |]);
    try (by apply elem_of_nil in Hin); done.
Qed.

Lemma sec_step_open b pc o b' pc' evs :
  sec_step b pc o = Some (b', pc', evs) ->
  (Open2 ∈ evs -> pc' = SConnect2 /\ nport2_reader b' = None /\
                  running b' = true) /\
  (Open1 ∈ evs ->
     nport1_connected b = false /\ b' = b /\ sec_connecting pc' = true /\
     pc = SRead2).
Proof.
  intros H. step_cases H; (split; [intros Hin | intros Hin]);
    repeat (apply elem_of_cons in Hin as [Hin | Hin]; [try discriminate Hin |]);
    try (by apply elem_of_nil in Hin); done.
Qed.

(** X13. Connections are opened on demand only.  A step opens a connection
    to NPort 1 only when it is the step of a task that has just read a chunk
    and finds an NPort 1 handle missing; the task does not hold the lock and
    the bridge object is unchanged.  A step opens a connection to NPort 2
    only when it is a step of the NPort 2 loop that comes to the head of the
    loop on a running bridge without an NPort 2 reader.  No session and no
    [cleanup] ever opens a connection to NPort 2. *)
Theorem connections_opened_on_demand
    (s : system) (a : action) (s' : system) (evs : list event) :
  sys_step s a = Some (s', evs) ->
  (Open1 ∈ evs ->
     nport1_connected (br s) = false /\ br s' = br s /\
     exists t o, a = resume t o /\ connecting s' t = true /\
                 holds_lock s t = false /\ holds_lock s' t = false) /\
  (Open2 ∈ evs ->
     nport2_reader (br s') = None /\ running (br s') = true /\
     secondary s' = SConnect2 /\ exists o, a = Secondary o).
Proof.
  intros Hs. destruct a as [| i o | o |].
  - simpl in Hs. simplify_eq. split; intros Hin; by apply elem_of_nil in Hin.
  - apply sys_step_client_inv in Hs as (pc & b' & pc' & Hi & Hs & -> & Hi').
    destruct (client_step_open _ _ _ _ _ _ Hs) as [H2 H1]. split; [| done].
    intros Hin. destruct (H1 Hin) as (Hc & -> & Hpc' & ->).
    repeat split; try done. exists (TClient i), o.
    unfold connecting, holds_lock, task_at. rewrite Hi, Hi'. simpl.
    repeat split; try done. by destruct pc'.
  - apply sys_step_secondary_inv in Hs as (b' & pc' & Hs & ->).
    destruct (sec_step_open _ _ _ _ _ _ Hs) as [H2 H1]. split.
    + intros Hin. destruct (H1 Hin) as (Hc & -> & Hpc' & Hpc).
      repeat split; try done. exists TSecondary, o.
      unfold connecting, holds_lock, task_at. simpl. rewrite Hpc.
      repeat split; try done. by destruct pc'.
    + intros Hin. destruct (H2 Hin) as (-> & Hn & Hr). simpl. eauto.
  - simpl in Hs. simplify_eq.
    split; intros Hin; exfalso;
      destruct (present (nport1_writer (br s))),
               (present (nport2_writer (br s))); simpl in Hin;
      repeat (apply elem_of_cons in Hin as [Hin | Hin]; [discriminate Hin |]);
      by apply elem_of_nil in Hin.
Qed.

Lemma connections_opened_on_demand_witness :
  nport1_connected (Bridge None None (Some 2) (Some 2) false true) = false /\
  exists t o,
    Client 0 (ORead (Got request)) = resume t o /\
    connecting client_reconnecting t = true.
Proof.
  destruct (connections_opened_on_demand
              {| br := Bridge None None (Some 2) (Some 2) false true;
                 clients := [CRead]; secondary := SStart |}
              (Client 0 (ORead (Got request))) client_reconnecting [Open1]
              eq_refl) as [H _].
  destruct (H (list_elem_of_here _ _)) as (Hc & _ & t & o & Ha & Ht & _).
  split; [exact Hc |]. by exists t, o.
Defined.

(** ** After [cleanup] *)

Lemma client_step_stopped b pc o b' pc' evs :
  running b = false ->
  client_step b pc o = Some (b', pc', evs) ->
  running b' = false /\ pc' <> CRead.
Proof.
  intros Hr H. step_cases H; simpl in *; split; first [done | congruence].
Qed.

Lemma sec_step_stopped b pc o b' pc' evs :
  running b = false ->
  sec_step b pc o = Some (b', pc', evs) ->
  running b' = false /\ pc' <> SConnect2 /\ (Open2 ∉ evs).
Proof.
  intros Hr H. step_cases H; simpl in *;
    (split; [first [done | congruence] |]);
    (split; [first [done | congruence] |]);
    intros Hin;
    repeat (apply elem_of_cons in Hin as [Hin | Hin]; [try discriminate Hin |]);
    try (by apply elem_of_nil in Hin); congruence.
Qed.

Lemma sys_step_stopped s a s' evs :
  running (br s) = false ->
  sys_step s a = Some (s', evs) ->
  running (br s') = false /\
  (forall i, clients s' !! i = Some CRead -> clients s !! i = Some CRead) /\
  (secondary s' = SConnect2 -> secondary s = SConnect2).
Proof.
  intros Hr Hs. destruct a as [| i o | o |].
  - simpl in Hs. simplify_eq. simpl. repeat split; try done.
    intros i Hi. apply lookup_app_Some in Hi as [Hi | [_ Hi]]; [done |].
    apply list_lookup_singleton_Some in Hi as [_ Hi]. discriminate Hi.
  - apply sys_step_client_inv in Hs as (pc & b' & pc' & Hi & Hs & -> & Hi').
    destruct (client_step_stopped _ _ _ _ _ _ Hr Hs) as [H1 H2].
    simpl in *. repeat split; try done.
    intros j Hj. destruct (decide (j = i)) as [-> | Hne].
    + rewrite Hi' in Hj. congruence.
    + by rewrite list_lookup_insert_ne in Hj by done.
  - apply sys_step_secondary_inv in Hs as (b' & pc' & Hs & ->).
    destruct (sec_step_stopped _ _ _ _ _ _ Hr Hs) as (H1 & H2 & _).
    simpl. repeat split; done.
  - simpl in Hs. by simplify_eq.
Qed.

(** X14. Once [cleanup] has cleared [running], nothing sets it again, and
    in every run that follows no session comes to wait for another chunk
    (a session found waiting was already waiting before), and the NPort 2
    loop never starts another connection attempt to NPort 2.  So a session
    accepted after [cleanup] never reads from its client. *)
Theorem stopped_bridge_drains (s : system) (acts : list action) (s' : system) :
  running (br s) = false ->
  run_actions s acts = Some s' ->
  running (br s') = false /\
  (forall i, clients s' !! i = Some CRead -> clients s !! i = Some CRead) /\
  (secondary s' = SConnect2 -> secondary s = SConnect2).
Proof.
  revert s. induction acts as [| a acts IH]; intros s Hr Hrun; simpl in Hrun.
  - by simplify_eq.
  - destruct (sys_step s a) as [[s1 evs] |] eqn:Hs; [| done].
    destruct (sys_step_stopped _ _ _ _ Hr Hs) as (H1 & H2 & H3).
    destruct (IH s1 H1 Hrun) as (H4 & H5 & H6). auto.
Qed.

Lemma stopped_bridge_drains_witness :
  run_actions {| br := Bridge (Some 1) (Some 1) None None true false;
                 clients := [CReply]; secondary := SSleep 5 |}
    [Client 0 resumed; Accept; Client 1 resumed; Secondary resumed]
  = Some {| br := Bridge (Some 1) (Some 1) None None false false;
            clients := [CClose; CClose]; secondary := SDone |} /\
  running (Bridge (Some 1) (Some 1) None None false false) = false.
Proof.
  split; [reflexivity |].
  exact (proj1 (stopped_bridge_drains
                  {| br := Bridge (Some 1) (Some 1) None None true false;
                     clients := [CReply]; secondary := SSleep 5 |}
                  [Client 0 resumed; Accept; Client 1 resumed;
                   Secondary resumed] _ eq_refl eq_refl)).
Defined.

(** ** The NPort 2 loop keeps running *)

Lemma client_step_running b pc o b' pc' evs :
  client_step b pc o = Some (b', pc', evs) -> running b' = running b.
Proof. intros H. step_cases H; done. Qed.

Lemma sec_step_running b pc o b' pc' evs :
  sec_step b pc o = Some (b', pc', evs) -> running b' = running b.
Proof. intros H. step_cases H; done. Qed.

Lemma sys_step_keeps_loop s a s' evs :
  running (br s) = true -> secondary s <> SDone ->
  ~ stops_or_cancels a ->
  sys_step s a = Some (s', evs) ->
  running (br s') = true /\ secondary s' <> SDone.
Proof.
  intros Hr Hpc Ha Hs. destruct a as [| i o | o |].
  - simpl in Hs. by simplify_eq.
  - apply sys_step_client_inv in Hs as (pc & b' & pc' & Hi & Hs & -> & Hi').
    simpl. by rewrite (client_step_running _ _ _ _ _ _ Hs).
  - apply sys_step_secondary_inv in Hs as (b' & pc' & Hs & ->).
    simpl. rewrite (sec_step_running _ _ _ _ _ _ Hs). split; [done |].
    intros ->. apply Ha. right. exists o. split; [done |].
    by apply (sec_step_never_fatal _ _ _ _ _ Hr Hs).
  - exfalso. apply Ha. by left.
Qed.

(** X15. While the bridge is running, the NPort 2 loop survives everything
    but its own cancellation: in a run without [cleanup] and without a
    cancellation of the loop, whatever the sessions do and whichever reads,
    writes, drains and connection attempts fail or time out, the bridge is
    still running and the loop has not ended. *)
Theorem nport2_loop_survives_failures
    (s : system) (acts : list action) (s' : system) :
  running (br s) = true ->
  secondary s <> SDone ->
  Forall (fun a => ~ stops_or_cancels a) acts ->
  run_actions s acts = Some s' ->
  running (br s') = true /\ secondary s' <> SDone.
Proof.
  revert s. induction acts as [| a acts IH]; intros s Hr Hpc Hq Hrun;
    simpl in Hrun.
  - by simplify_eq.
  - apply Forall_cons in Hq as [Ha Hq].
    destruct (sys_step s a) as [[s1 evs] |] eqn:Hs; [| done].
    destruct (sys_step_keeps_loop _ _ _ _ Hr Hpc Ha Hs) as [H1 H2]. eauto.
Qed.

Lemma nport2_loop_survives_failures_witness :
  exists s',
    run_actions booted
      [Secondary resumed; Secondary (ORead (Threw OtherException));
       Secondary (ODone (Threw TimeoutError)); Secondary resumed;
       Secondary (OConn (Threw TimeoutError))] = Some s' /\
    secondary s' <> SDone.
Proof.
  eexists. split; [reflexivity |].
  refine (proj2 (nport2_loop_survives_failures booted
                   [Secondary resumed; Secondary (ORead (Threw OtherException));
                    Secondary (ODone (Threw TimeoutError)); Secondary resumed;
                    Secondary (OConn (Threw TimeoutError))] _
                   eq_refl _ _ eq_refl)).
  - discriminate.
  - repeat constructor;
      (intros [Hs | (o & Ho & [Hr | [Hr | Hr]])];
       [discriminate Hs | injection Ho as <-; discriminate Hr ..]).
Defined.

(** ** Exchanges that give no reply *)

(** X16. A task waits for the reply of NPort 1 and the read times out or
    returns no bytes (NPort 1 has closed the connection).  Neither is
    treated as a failure: no handle of NPort 1 or NPort 2 is changed (an
    end of stream from NPort 1 does not make the bridge reconnect), nothing
    is written to the client or to NPort 2, the lock is released, and while
    the bridge is running the task is back at the first await of its loop. *)
Theorem no_reply_keeps_connection
    (s : system) (t : task) (r : awaited bytes) (s' : system) (evs : list event) :
  on_primary s t = true ->
  no_reply r ->
  sys_step s (resume t (ORead r)) = Some (s', evs) ->
  nport1_reader (br s') = nport1_reader (br s) /\
  nport1_writer (br s') = nport1_writer (br s) /\
  nport2_reader (br s') = nport2_reader (br s) /\
  nport2_writer (br s') = nport2_writer (br s) /\
  bus_lock (br s') = false /\ holds_lock s' t = false /\
  (forall ev, ev ∈ evs -> delivers ev = false) /\
  (running (br s) = true -> at_loop s' t = true).
Proof.
  intros Ht Hr Hs. destruct t as [i |].
  - apply task_at_client in Ht as (pc & Hi & Hpc).
    apply sys_step_client_inv in Hs as (pc0 & b' & pc' & Hi0 & Hs & -> & Hi').
    simplify_eq. unfold holds_lock, at_loop, task_at. rewrite Hi'. simpl.
    destruct pc; try discriminate Hpc; [discriminate Hs |].
    destruct Hr as [-> | ->]; simpl in Hs;
      unfold client_reply_raise, client_loop, client_finally in Hs;
      simpl in Hs; destruct (running (br s)); simplify_eq; simpl;
      repeat split; try done;
      intros ev Hev;
      repeat (apply elem_of_cons in Hev as [-> | Hev]; [done |]);
      by apply elem_of_nil in Hev.
  - simpl in Ht.
    apply sys_step_secondary_inv in Hs as (b' & pc' & Hs & ->).
    unfold holds_lock, at_loop, task_at. simpl.
    destruct (secondary s); try discriminate Ht; [discriminate Hs |].
    destruct Hr as [-> | ->]; simpl in Hs;
      unfold sec_reply_raise, sec_loop in Hs; simpl in Hs;
      destruct (running (br s)) eqn:Er, (nport2_reader (br s)) eqn:En;
      simplify_eq; simpl; rewrite ?En;
      repeat split; try done;
      intros ev Hev;
      repeat (apply elem_of_cons in Hev as [-> | Hev]; [done |]);
      by apply elem_of_nil in Hev.
Qed.

Lemma no_reply_keeps_connection_witness :
  exists s',
    sys_step {| br := Bridge (Some 1) (Some 1) (Some 2) (Some 2) true true;
                clients := [CRecv]; secondary := SRead2 |}
      (Client 0 (ORead (Got []))) = Some (s', []) /\
    nport1_writer (br s') = Some 1 /\ bus_lock (br s') = false.
Proof.
  eexists. split; [reflexivity |].
  destruct (no_reply_keeps_connection
              {| br := Bridge (Some 1) (Some 1) (Some 2) (Some 2) true true;
                 clients := [CRecv]; secondary := SRead2 |}
              (TClient 0) (Got []) _ [] eq_refl (or_intror eq_refl) eq_refl)
    as (_ & Hw & _ & _ & Hl & _).
  split; [exact Hw | exact Hl].
Defined.

(** X17. A session is in an exchange with NPort 1 while a second session,
    which found the handles there, has a chunk queued behind the lock.  The
    exchange fails.  When the second session gets the lock it writes on
    handles that are gone: its chunk is dropped without being sent, without
    a reply and without any attempt to reconnect, the handles stay cleared,
    the lock is free again, and both sessions wait for their next chunk. *)
Theorem queued_chunk_dropped_after_failure
    (s : system) (i j : nat) (pc : client_pc) (d : bytes) (o : outcome)
    (s1 : system) (evs1 : list event) :
  clients s !! i = Some pc ->
  client_on_primary pc = true ->
  clients s !! j = Some (CAcquire d) ->
  running (br s) = true ->
  exchange_failure o = true ->
  sys_step s (Client i o) = Some (s1, evs1) ->
  run_trace s [Client i o; Client j resumed]
  = Some ({| br := release (clear_nport1 (br s));
             clients := <[j := CRead]> (<[i := CRead]> (clients s));
             secondary := secondary s |}, []).
Proof.
  intros Hi Hpc Hj Hrun Ho Hs.
  assert (Hne : i <> j).
  { intros ->. rewrite Hi in Hj. by simplify_eq. }
  apply sys_step_client_inv in Hs as (pc0 & b' & pc' & Hi0 & Hs & -> & _).
  simplify_eq.
  destruct (client_step_exchange_failure _ _ _ _ _ _ Hpc Ho Hs)
    as (-> & -> & ->).
  rewrite Hrun in *.
  erewrite run_trace_client; [| exact Hi | exact Hs].
  erewrite run_trace_client;
    [| simpl; rewrite list_lookup_insert_ne by done; exact Hj |];
    [| simpl; unfold client_exchange_raise, client_loop; simpl;
       rewrite Hrun; reflexivity ].
  simpl. reflexivity.
Qed.

Lemma queued_chunk_dropped_after_failure_witness :
  run_trace two_sessions
    [Client 0 (ODone (Threw TimeoutError)); Client 1 resumed]
  = Some ({| br := Bridge None None (Some 2) (Some 2) false true;
             clients := [CRead; CRead]; secondary := SStart |}, []).
Proof.
  apply (queued_chunk_dropped_after_failure two_sessions 0 1 CDrain request
           (ODone (Threw TimeoutError)) _ [] eq_refl eq_refl eq_refl eq_refl
           eq_refl eq_refl).
Defined.

(** ** The configuration tests *)

Lemma unsetenv_all_settings_lookup (env : gmap string string) (key : string) :
  key ∈ settings -> unsetenv_all settings env !! key = None.
Proof.
  unfold settings, unsetenv_all. simpl. intros Hkey.
  repeat (apply elem_of_cons in Hkey as [-> | Hkey]; [by simplify_map_eq |]).
  by apply elem_of_nil in Hkey.
Qed.

(** X18. [test_config_loading] passes in every environment, whatever the
    variables held before; it leaves the environment with the seven settings
    removed (a value the caller had set is not restored) and everything else
    as it was, so that [test_config_defaults] passes right after it. *)
Theorem test_config_loading_passes (env : gmap string string) :
  test_config_loading env = (Passed, unsetenv_all settings env) /\
  (forall key, key ∈ settings -> unsetenv_all settings env !! key = None) /\
  (forall key, key ∉ settings -> unsetenv_all settings env !! key = env !! key) /\
  test_config_defaults (test_config_loading env).2 = Passed.
Proof.
  assert (Hrun : test_config_loading env = (Passed, unsetenv_all settings env)).
  { unfold test_config_loading.
    assert (H : load_config (setenv_all loading_values env)
      = Loaded {| nport1_host := "10.0.0.10"; nport1_port := 5001;
                  nport2_host := "10.0.0.20"; nport2_port := 5002;
                  listen_host := "127.0.0.1"; listen_port := 6000;
                  timeout := 5 |}).
    { unfold load_config, getenv, setenv_all, loading_values. simpl.
      by simplify_map_eq. }
    rewrite H. simpl. f_equal.
    apply map_eq. intros k.
    unfold unsetenv_all, settings, setenv_all, loading_values. simpl.
    repeat match goal with
    | |- context [delete ?key _ !! k] =>
        destruct (decide (k = key)) as [-> | ?]; [by simplify_map_eq |];
        rewrite !(lookup_delete_ne _ key k) by done
    end.
    by rewrite !lookup_insert_ne by done. }
  split; [exact Hrun |].
  split; [apply unsetenv_all_settings_lookup |].
  split.
  - intros key Hkey. unfold settings in Hkey.
    unfold unsetenv_all, settings. simpl.
    rewrite !lookup_delete_ne; [done | intros <-; apply Hkey; set_solver ..].
  - rewrite Hrun. simpl. unfold test_config_defaults, load_config.
    rewrite !getenv_unset
      by (apply unsetenv_all_settings_lookup; unfold settings; set_solver).
    reflexivity.
Qed.

(** X19. [test_config_validation] passes in every environment: with
    NPORT1_PORT set to "invalid", [load_config] exits whatever the other
    variables hold.  It leaves the environment without NPORT1_PORT, also
    when the caller had set it, and otherwise unchanged. *)
Theorem test_config_validation_passes (env : gmap string string) :
  test_config_validation env = (Passed, delete "NPORT1_PORT" env).
Proof.
  unfold test_config_validation, load_config.
  rewrite (getenv_set _ "NPORT1_PORT" _ "invalid") by apply lookup_insert_eq.
  simpl. by rewrite delete_insert_eq.
Qed.
